(** * Cemaden DCP harvester: model of [Cemaden.js] and [example_cemaden.js]

    The development embeds the harvester in Rocq: the pure formatting helpers
    ([buildKeys], [buildLine], [buildHeader], [buildFileName],
    [compareDates]) as functions, and the effectful part ([openFile],
    [saveLastDate], [getLastDate], [getDCPs], [getData]) in a state and
    exception monad over an explicit world made of the directory tree below
    [targetDir], the HTTP request counter and a trace of writes.  The checks
    of the constructor on [config.json] and the method [clean] take no part
    in a harvest and are left out. *)

From Stdlib Require Import ZArith List Lia String Ascii Bool.
From stdpp Require Import base option list strings gmap pretty.

(** ** JSON values and readings *)

(** A JSON value as it reaches the formatting code.  A number is carried by
    its JavaScript decimal rendering (what a template literal prints). *)
Inductive Value :=
| VUndefined
| VNull
| VBool (b : bool)
| VNum (rendering : string)
| VStr (s : string).

#[global] Instance Value_eq_dec : EqDecision Value.
Proof. solve_decision. Defined.

(** A reading (DCP) is a JSON object: its properties in [Object.keys] order. *)
Definition DCP := list (string * Value).

(** [dcp[key]]: the first property of that name, [undefined] when absent. *)
Fixpoint prop (dcp : DCP) (key : string) : Value :=
  match dcp with
  | [] => VUndefined
  | (k, v) :: rest => if String.eqb k key then v else prop rest key
  end.

(** [Object.keys(dcp)] *)
Definition keysOf (dcp : DCP) : list string := map fst dcp.

(** String coercion of a value inside a template literal or a [+]. *)
Definition toStr (v : Value) : string :=
  match v with
  | VUndefined => "undefined"
  | VNull => "null"
  | VBool true => "true"
  | VBool false => "false"
  | VNum r => r
  | VStr s => s
  end.

(** [v == null] *)
Definition looseNull (v : Value) : bool :=
  match v with
  | VUndefined | VNull => true
  | _ => false
  end.

Definition CRLF : string := String (ascii_of_nat 13) (String (ascii_of_nat 10) "").

(** ** The [moment] comparisons used by the harvester

    A moment wraps a time value in milliseconds; [None] is an invalid date.
    With no unit argument the comparisons are at millisecond resolution, and
    they answer [false] as soon as one side is invalid. *)
Module Moment.

Definition t := option Z.

Definition isValid (m : t) : bool :=
  match m with Some _ => true | None => false end.

Definition isSame (a b : t) : bool :=
  match a, b with
  | Some x, Some y => Z.eqb x y
  | _, _ => false
  end.

Definition isBefore (a b : t) : bool :=
  match a, b with
  | Some x, Some y => Z.ltb x y
  | _, _ => false
  end.

Definition isSameOrBefore (a b : t) : bool := isSame a b || isBefore a b.

End Moment.

Section Formatting.

(** The date library: [jsDate v] is the time value of [new Date(v)]
    ([None] for an invalid date) and [momentFormat v pattern] is
    [moment(v).format(pattern)]. *)
Variable jsDate : Value -> Moment.t.
Variable momentFormat : Value -> string -> string.

Definition buildKeys (dcp : DCP) (excludeOptions : list string) : list string :=
  List.filter (fun element => negb (bool_decide (element ∈ excludeOptions))) (keysOf dcp).

(** The body of the [for] loop of [buildLine], from [index] on. *)
Fixpoint buildLine_loop (dcp : DCP) (arrayKeys : list string) (csvLine : string) : string :=
  match arrayKeys with
  | [] => csvLine
  | element :: rest =>
      let v := prop dcp element in
      buildLine_loop dcp rest
        (csvLine +:+ (if looseNull v then "" else toStr v)
                 +:+ (match rest with [] => CRLF | _ => ";" end))
  end.

Definition buildLine (dcp : DCP) (arrayKeys : list string) : string :=
  let arrayKeys := rev arrayKeys in
  let csvLine := momentFormat (prop dcp "dataHora") "MM/DD/YYYY HH:mm:ss" +:+ ";" in
  buildLine_loop dcp arrayKeys csvLine.

Fixpoint buildHeader_loop (arrayKeys : list string) (header : string) : string :=
  match arrayKeys with
  | [] => header
  | element :: rest =>
      buildHeader_loop rest
        (header +:+ element +:+ (match rest with [] => CRLF | _ => ";" end))
  end.

(** The source takes the station as a first argument and does not use it. *)
Definition buildHeader (arrayKeys : list string) : string :=
  let arrayKeys := rev arrayKeys in
  buildHeader_loop arrayKeys "TIMESTAMP;".

Definition buildFileName (dcp : DCP) : string :=
  let dcpCodEstacao := prop dcp "codestacao" in
  let dcpDataHora := momentFormat (prop dcp "dataHora") "YYYYMMDD_HHmmss" in
  toStr dcpCodEstacao +:+ "_" +:+ dcpDataHora.

Definition compareDates (stationDate lastFileDate : Value) : bool :=
  let timeStation := jsDate stationDate in
  let timeLastFile := jsDate lastFileDate in
  if Moment.isSameOrBefore timeStation timeLastFile then false else true.

End Formatting.

(** ** The world the harvester runs in *)

(** A file below [targetDir]: the station directory and the file name in it. *)
Record Path := mkPath { pdir : string; pfile : string }.

Definition pathString (targetDir : string) (p : Path) : string :=
  targetDir +:+ "/" +:+ pdir p +:+ "/" +:+ pfile p.

(** What the program does to the outside, in the order it does it; the
    constructor records the call site. *)
Inductive Event :=
| EvMkdirRoot                              (* getData: fs.mkdirSync(this.targetDir) *)
| EvMkdir (dir : string)                   (* getData: fs.mkdirSync of a station directory *)
| EvHeader (p : Path) (data : string)      (* openFile: fs.writeSync of the default data *)
| EvLine (p : Path) (csvLine : string)     (* getData: fs.writeSync of one csv line *)
| EvLastDate (p : Path) (newDate : string) (* saveLastDate: fs.writeFile *)
| EvConsole (msg : string).                (* console.warn / console.error / console.log *)

#[global] Instance Path_eq_dec : EqDecision Path.
Proof. solve_decision. Defined.

#[global] Instance Event_eq_dec : EqDecision Event.
Proof. solve_decision. Defined.

(** [root]: whether [targetDir] exists.  [parent]: whether the directory
    [targetDir] is to be created in exists ([fs.mkdirSync] is not recursive).
    [tree]: station directory to file name to contents; a station code is
    taken as a plain directory name, the tree has no deeper level.
    [quota]: how many more write calls the file system accepts ([None]: no
    limit); once it is used up every write call is refused.  [requests]: HTTP
    GETs issued so far.  [trace]: the events, oldest first.

    The operations on the station directories are those of the loop of
    [getData], which runs once [targetDir] exists: they do not look at
    [root]. *)
Record World := mkWorld {
  root : bool;
  parent : bool;
  tree : gmap string (gmap string string);
  quota : option nat;
  requests : nat;
  trace : list Event
}.

Definition setTree (tr : gmap string (gmap string string)) (w : World) : World :=
  mkWorld (root w) (parent w) tr (quota w) (requests w) (trace w).

Definition logEvent (e : Event) (w : World) : World :=
  mkWorld (root w) (parent w) (tree w) (quota w) (requests w) (trace w ++ [e]).

Definition spend (w : World) : World :=
  mkWorld (root w) (parent w) (tree w) (Nat.pred <$> quota w) (requests w) (trace w).

Definition countRequest (w : World) : World :=
  mkWorld (root w) (parent w) (tree w) (quota w) (S (requests w)) (trace w).

Definition setRoot (w : World) : World :=
  mkWorld true (parent w) (tree w) (quota w) (requests w) (trace w).

Definition readFile (p : Path) (w : World) : option string :=
  d ← tree w !! pdir p; d !! pfile p.

(** Replace the contents of [p]; nothing happens when its directory is missing. *)
Definition putFile (p : Path) (content : string) (w : World) : World :=
  match tree w !! pdir p with
  | Some d => setTree (<[pdir p := <[pfile p := content]> d]> (tree w)) w
  | None => w
  end.

Definition diskFull (w : World) : bool :=
  match quota w with Some 0 => true | _ => false end.

(** ** Exceptions, outcomes and the monad *)

Inductive Exn :=
| DisabledDCP (code : string)   (* no reading of the station in the payload *)
| TransportError                (* the request failed: timeout, non-2xx status *)
| TypeError
| ReferenceError
| ENOENT
| EEXIST
| ENOSPC.

(** An exception thrown inside a node callback is not caught by any
    [try]: the process dies.  A promise that nobody resolves leaves the
    [await] pending for ever. *)
Inductive Abort :=
| Uncaught (e : Exn)
| NeverSettles.

Inductive Outcome (A : Type) :=
| Done (a : A)
| Thrown (e : Exn)
| Fatal (f : Abort).
Arguments Done {A} a.
Arguments Thrown {A} e.
Arguments Fatal {A} f.

Definition M (A : Type) : Type := World -> Outcome A * World.

Definition ret {A} (a : A) : M A := fun w => (Done a, w).

Definition bind {A B} (m : M A) (k : A -> M B) : M B := fun w =>
  match m w with
  | (Done a, w') => k a w'
  | (Thrown e, w') => (Thrown e, w')
  | (Fatal f, w') => (Fatal f, w')
  end.

Definition throw {A} (e : Exn) : M A := fun w => (Thrown e, w).

(** [try { m } catch (error) { handler error }] *)
Definition tryCatch {A} (m : M A) (handler : Exn -> M A) : M A := fun w =>
  match m w with
  | (Thrown e, w') => handler e w'
  | r => r
  end.

Definition modify (f : World -> World) : M unit := fun w => (Done tt, f w).

Definition console (msg : string) : M unit := modify (logEvent (EvConsole msg)).

Declare Scope cemaden_scope.
Delimit Scope cemaden_scope with cemaden.
Notation "'let!' x ':=' m 'in' k" := (bind m (fun x => k))
  (at level 10, x name, m at level 100, k at level 200) : cemaden_scope.
Notation "m ';;;' k" := (bind m (fun _ => k))
  (at level 100, k at level 200, right associativity) : cemaden_scope.
Local Open Scope cemaden_scope.

(** ** File primitives *)

Definition existsSync (dir : string) : M bool := fun w =>
  (Done (bool_decide (is_Some (tree w !! dir))), w).

Definition mkdirSync (dir : string) : M unit := fun w =>
  match tree w !! dir with
  | Some _ => (Thrown EEXIST, w)
  | None => (Done tt, logEvent (EvMkdir dir) (setTree (<[dir := ∅]> (tree w)) w))
  end.

(** [fs.writeSync(fd, data)] on a descriptor opened in append mode.  The
    descriptor is the path it was opened on; [None] is the [undefined] that
    [openFile] returns when it could not open.  Data that is not a string is
    refused with a [TypeError]. *)
Definition writeSync (ev : Path -> string -> Event)
    (fileDescriptor : option Path) (data : Value) : M unit := fun w =>
  match fileDescriptor, data with
  | Some p, VStr s =>
      if diskFull w then (Thrown ENOSPC, w)
      else (Done tt,
            logEvent (ev p s)
              (spend (putFile p (default "" (readFile p w) +:+ s) w)))
  | _, _ => (Thrown TypeError, w)
  end.

(** [fs.existsSync(this.targetDir)] *)
Definition existsSyncRoot : M bool := fun w => (Done (root w), w).

(** [fs.mkdirSync(this.targetDir)]: it throws when the directory to create
    [targetDir] in is missing. *)
Definition mkdirSyncRoot : M unit := fun w =>
  if parent w then (Done tt, logEvent EvMkdirRoot (setRoot w))
  else (Thrown ENOENT, w).

Definition closeSync (fileDescriptor : option Path) : M unit :=
  match fileDescriptor with
  | Some _ => ret tt
  | None => throw TypeError
  end.

Section Harvester.

Variable jsDate : Value -> Moment.t.
Variable momentFormat : Value -> string -> string.

(** [config.json] *)
Record Config := mkConfig {
  url : string;
  dataDir : string;
  stations : list string;       (* the [codEstacao] of every station of interest *)
  exclude : list string
}.

Variable config : Config.

Definition openFile (fileName : Path) (defaultData : Value) : M (option Path) := fun w =>
  match tree w !! pdir fileName with
  | None =>
      (* both fs.openSync calls throw; the [return] of the [finally] block
         swallows the exception *)
      (Done None,
       logEvent (EvConsole ("Could not open file " +:+ pathString (dataDir config) fileName)) w)
  | Some d =>
      (* flag 'a+' creates the file when it is missing *)
      let content := default "" (d !! pfile fileName) in
      let w1 := putFile fileName content w in
      let fileSize := String.length content in
      if Nat.eqb fileSize 0
      then bind (writeSync EvHeader (Some fileName) defaultData) (fun _ => ret (Some fileName)) w1
      else (Done (Some fileName), w1)
  end.

(** On an error of [fs.readdir] the callback logs and returns without
    resolving: the promise stays pending. *)
Definition listFileFromDirectory (dir : string) : M (list string) := fun w =>
  match tree w !! dir with
  | None => (Fatal NeverSettles, logEvent (EvConsole "Unable to scan directory: ENOENT") w)
  | Some d => (Done (map fst (map_to_list d)), w)
  end.

(** The file is read first and an error of that read is thrown inside the
    callback.  [fs.writeFile] then opens the file with flag ['w'], which
    empties it, and writes the date; when that write is refused the promise
    resolves with [false] and the file stays empty.  The refusal is that of
    a file system that accepts no write call any more; on a disk that is
    merely full, emptying the file gives back the room the date needs and
    the write goes through.  A date that is not a string makes [fs.writeFile] throw inside the
    callback, before the file is opened. *)
Definition saveLastDate (pathFileDir : Path) (newDate : Value) : M bool := fun w =>
  match readFile pathFileDir w with
  | None => (Fatal (Uncaught ENOENT), w)
  | Some _ =>
      match newDate with
      | VStr s =>
          if diskFull w then (Done false, putFile pathFileDir "" w)
          else (Done true, logEvent (EvLastDate pathFileDir s) (spend (putFile pathFileDir s w)))
      | _ => (Fatal (Uncaught TypeError), w)
      end
  end.

(** Resolves with the contents of the file; the caller hands them to
    [new Date], which reads them as a string. *)
Definition getLastDate (pathFileDir : Path) : M string := fun w =>
  match readFile pathFileDir w with
  | None => (Fatal (Uncaught ENOENT), w)
  | Some data => (Done data, w)
  end.

(** [csv().fromFile(fileName)]: the file is read and the result is not used. *)
Definition csvFromFile (fileName : Path) : M unit := fun w =>
  match readFile fileName w with
  | None => (Thrown ENOENT, w)
  | Some _ => (Done tt, w)
  end.

(** ** The remote service *)

(** What one GET of [config.url] gives: a failure of the transport, or a
    body whose ['cemaden'] entry is an array of readings ([None] when the
    body has no such array). *)
Inductive Response :=
| Failed
| Body (cemaden : option (list DCP)).

(** The service answers the n-th request of the run with [net n]. *)
Variable net : nat -> Response.

(** One GET, then the readings whose [codestacao] is the station's.  The
    client is always axios, so the missing-client rejection cannot happen;
    reading ['cemaden'] off a body without it makes [forEach] throw, and the
    [catch] rejects with that error. *)
Definition getDCPs (station : string) : M (list DCP) := fun w =>
  let w' := countRequest w in
  match net (requests w) with
  | Failed => (Thrown TransportError, w')
  | Body None => (Thrown TypeError, w')
  | Body (Some arrayDCPsJsonCemaden) =>
      let pcdInfoArrary :=
        List.filter (fun element => bool_decide (prop element "codestacao" = VStr station))
          arrayDCPsJsonCemaden in
      if Nat.eqb (length pcdInfoArrary) 0
      then (Thrown (DisabledDCP station), w')
      else (Done pcdInfoArrary, w')
  end.

Definition lastDateFile (dcpName : string) : Path := mkPath dcpName "lastDate.dat".

(** The [for] loop of lines 283-287 of [getData]: the readings kept for
    saving, [lastDate] being the contents of [lastDate.dat]. *)
Definition dcpsToSave (lastDate : string) (dcps : list DCP) : list DCP :=
  List.filter (fun dcp => compareDates jsDate (prop dcp "dataHora") (VStr lastDate)) dcps.

Fixpoint writeLines (fileDescriptor : option Path) (dcps : list DCP) : M unit :=
  match dcps with
  | [] => ret tt
  | dcp :: rest =>
      let csvLine := buildLine momentFormat dcp (buildKeys dcp (exclude config)) in
      writeSync EvLine fileDescriptor (VStr csvLine) ;;;
      writeLines fileDescriptor rest
  end.

(** Lines 298-315 and, with [firstDcp], [lastDcp] and [dcps], lines 320-337
    of [getData]: header from the first reading, file named by the last one,
    then one line per reading. *)
Definition storeBatch (dcpName : string) (firstDcp lastDcp : DCP) (dcps : list DCP) : M unit :=
  let header := buildHeader (buildKeys firstDcp (exclude config)) in
  let fileNameSave := buildFileName momentFormat lastDcp in
  let fileName := mkPath dcpName (fileNameSave +:+ ".dat") in
  let! fileDescriptor := openFile fileName (VStr header) in
  csvFromFile fileName ;;;
  writeLines fileDescriptor dcps ;;;
  closeSync fileDescriptor.

(** Lines 252-339 of [getData]: what the [try] block does with the readings
    of one station, up to the [outputDCP.push].  [lastDcp] is never
    [undefined] where its type is tested. *)
Definition persistDCPs (dcps : list DCP) : M unit :=
  match head dcps, last dcps with
  | Some firstDcp, Some lastDcp =>
      let dcpName := toStr (prop lastDcp "codestacao") in
      let! present := existsSync dcpName in
      let! filesInDirectory :=
        (if negb present then
           console ("The directory " +:+ dataDir config +:+ "/" +:+ dcpName
                      +:+ " does not exist. Creating...") ;;;
           mkdirSync dcpName ;;;
           openFile (lastDateFile dcpName) (prop lastDcp "dataHora") ;;;
           ret []
         else listFileFromDirectory dcpName) in
      if Nat.ltb 0 (length filesInDirectory) then
        let! lastDate := getLastDate (lastDateFile dcpName) in
        let dcpsToSave := dcpsToSave lastDate dcps in
        match head dcpsToSave, last dcpsToSave with
        | Some firstToSave, Some lastToSave =>
            saveLastDate (lastDateFile dcpName) (prop lastToSave "dataHora") ;;;
            storeBatch dcpName firstToSave lastToSave dcpsToSave
        | _, _ => ret tt
        end
      else storeBatch dcpName firstDcp lastDcp dcps
  | _, _ =>
      (* [reject] is not bound in [getData] *)
      throw ReferenceError
  end.

(** The body of the [try] block of [getData] for one station. *)
Definition processStation (station : string) : M (list DCP) :=
  let! dcps := getDCPs station in
  persistDCPs dcps ;;;
  ret dcps.

(** One turn of the [for] loop of [getData]: the [try] block and its [catch]. *)
Definition stationTurn (outputDCP : list (list DCP)) (station : string) : M (list (list DCP)) :=
  tryCatch
    (let! dcps := processStation station in ret (outputDCP ++ [dcps]))
    (fun error =>
       match error with
       | DisabledDCP message =>
           console ("Could not retrieve data for station with code: " +:+ message) ;;;
           ret outputDCP
       | _ => ret outputDCP
       end).

Fixpoint stationLoop (todo : list string) (outputDCP : list (list DCP)) : M (list (list DCP)) :=
  match todo with
  | [] => ret outputDCP
  | station :: rest =>
      let! outputDCP := stationTurn outputDCP station in
      stationLoop rest outputDCP
  end.

(** Lines 237-352: the target directory is created when missing, outside
    any [try], so that an error of [fs.mkdirSync] rejects the promise of
    [getData]; then the loop runs over [config.stations] and its result is
    returned. *)
Definition getData : M (list (list DCP)) :=
  let! present := existsSyncRoot in
  (if negb present then
     console ("The directory " +:+ dataDir config +:+ " does not exist. Creating...") ;;;
     mkdirSyncRoot
   else ret tt) ;;;
  stationLoop (stations config) [].

(** ** The command line wrapper, [example_cemaden.js] *)

(** [err.toString()].  The one error that reaches the wrapper is that of
    [fs.mkdirSync(this.targetDir)], rendered in full; the others are caught
    before and are rendered by their name. *)
Definition exnString (e : Exn) : string :=
  match e with
  | DisabledDCP code => "Error: " +:+ code
  | TransportError => "Error: Network Error"
  | TypeError => "TypeError"
  | ReferenceError => "ReferenceError"
  | ENOENT => "Error: ENOENT: no such file or directory, mkdir '" +:+ dataDir config +:+ "'"
  | EEXIST => "Error: EEXIST"
  | ENOSPC => "Error: ENOSPC"
  end.

(** How the process ends: what the wrapper printed and the exit code.  An
    uncaught exception ends the process with code 1 and a promise that never
    settles lets it end with code 0; the wrapper prints nothing then. *)
Record Exit := mkExit { printed : option string; exitCode : Z }.

Definition example_cemaden (w : World) : Exit * World :=
  match getData w with
  | (Done dcps, w') =>
      (mkExit (Some ("Done. Saved " +:+ pretty (length dcps) +:+ " DCPs in " +:+ dataDir config)) 0, w')
  | (Thrown err, w') =>
      (mkExit (Some ("Got error while retrieving DCPS. " +:+ exnString err)) 1, w')
  | (Fatal (Uncaught _), w') => (mkExit None 1, w')
  | (Fatal NeverSettles, w') => (mkExit None 0, w')
  end.

End Harvester.

(** ** A concrete date library for the examples

    The service stamps its readings as [YYYY-MM-DD HH:mm:ss.S].  [Utc] gives
    [new Date] and [moment().format] on such strings for a host whose time
    zone is UTC, and only for the two patterns the harvester uses; any other
    value is an invalid date here. *)
Module Utc.

Definition digit (c : ascii) : option Z :=
  let n := Z.of_nat (nat_of_ascii c) in
  if ((48 <=? n) && (n <=? 57))%Z then Some (n - 48)%Z else None.

Fixpoint number (s : string) (acc : Z) : option Z :=
  match s with
  | EmptyString => Some acc
  | String c rest =>
      match digit c with
      | Some d => number rest (10 * acc + d)%Z
      | None => None
      end
  end.

Definition field (s : string) (start len : nat) : option Z :=
  number (substring start len s) 0.

Definition leap (y : Z) : bool :=
  ((y mod 4 =? 0) && (negb (y mod 100 =? 0) || (y mod 400 =? 0)))%Z.

Definition daysInMonth (y m : Z) : Z :=
  (if m =? 2 then (if leap y then 29 else 28)
   else if (m =? 4) || (m =? 6) || (m =? 9) || (m =? 11) then 30 else 31)%Z.

(** Days from 1970-01-01 to the given civil date. *)
Definition daysFromCivil (y m d : Z) : Z :=
  (let y' := if m <=? 2 then y - 1 else y in
   let era := y' / 400 in
   let yoe := y' - era * 400 in
   let doy := (153 * (if 2 <? m then m - 3 else m + 9) + 2) / 5 + d - 1 in
   let doe := yoe * 365 + yoe / 4 - yoe / 100 + doy in
   era * 146097 + doe - 719468)%Z.

Definition separators (s : string) : bool :=
  String.eqb (substring 4 1 s) "-" && String.eqb (substring 7 1 s) "-"
  && String.eqb (substring 10 1 s) " " && String.eqb (substring 13 1 s) ":"
  && String.eqb (substring 16 1 s) ":" && String.eqb (substring 19 1 s) ".".

Definition parse (s : string) : option Z :=
  if negb (Nat.eqb (String.length s) 21 && separators s) then None else
  y ← field s 0 4; m ← field s 5 2; d ← field s 8 2;
  hh ← field s 11 2; mm ← field s 14 2; ss ← field s 17 2; f ← field s 20 1;
  if ((1 <=? m) && (m <=? 12) && (1 <=? d) && (d <=? daysInMonth y m)
      && (hh <=? 23) && (mm <=? 59) && (ss <=? 59))%Z
  then Some ((((daysFromCivil y m d * 24 + hh) * 60 + mm) * 60 + ss) * 1000 + f * 100)%Z
  else None.

Definition jsDate (v : Value) : Moment.t :=
  match v with
  | VStr s => parse s
  | _ => None
  end.

Definition momentFormat (v : Value) (pattern : string) : string :=
  match v with
  | VStr s =>
      if Moment.isValid (parse s) then
        if String.eqb pattern "MM/DD/YYYY HH:mm:ss" then
          substring 5 2 s +:+ "/" +:+ substring 8 2 s +:+ "/" +:+ substring 0 4 s
            +:+ " " +:+ substring 11 8 s
        else if String.eqb pattern "YYYYMMDD_HHmmss" then
          substring 0 4 s +:+ substring 5 2 s +:+ substring 8 2 s +:+ "_"
            +:+ substring 11 2 s +:+ substring 14 2 s +:+ substring 17 2 s
        else ""
      else "Invalid date"
  | _ => "Invalid date"
  end.

End Utc.


(** ** Reference notions the properties are stated with *)

(** The time value of a reading's [dataHora]. *)
Definition instant (jsDate : Value -> Moment.t) (dcp : DCP) : Moment.t :=
  jsDate (prop dcp "dataHora").

(** The readings strictly after [watermark], in their order of arrival. *)
Definition newerThan (jsDate : Value -> Moment.t) (watermark : Z) (dcps : list DCP) : list DCP :=
  List.filter
    (fun dcp => match instant jsDate dcp with Some t => Z.ltb watermark t | None => false end)
    dcps.

(** The cell a reading contributes under the column [key]. *)
Definition cell (dcp : DCP) (key : string) : string :=
  if looseNull (prop dcp key) then "" else toStr (prop dcp key).

(** A row of a data file: the first cell, a [;], then the other cells
    separated by [;] and closed by CR LF; a row with no other cell has no
    line terminator. *)
Definition row (first : string) (cells : list string) : string :=
  first +:+ ";" +:+
  match cells with
  | [] => ""
  | _ => String.concat ";" cells +:+ CRLF
  end.

(** Number of occurrences of a character in a string. *)
Fixpoint countChar (c : ascii) (s : string) : nat :=
  match s with
  | EmptyString => 0
  | String c' rest => (if Ascii.eqb c' c then 1 else 0) + countChar c rest
  end.

(** Number of [;] in a string. *)
Definition semicolons (s : string) : nat := countChar ";" s.

(** The readings of [station] in a response of the service: what [getDCPs]
    resolves with when there are some. *)
Definition stationReadings (station : string) (r : Response) : list DCP :=
  match r with
  | Body (Some arrayDCPsJsonCemaden) =>
      List.filter (fun element => bool_decide (prop element "codestacao" = VStr station))
        arrayDCPsJsonCemaden
  | _ => []
  end.

(** The batches a cycle is to resolve with when nothing goes wrong on the
    side of the files: the station at position [i] of [todo] is matched
    against the answer to request [n + i], and it contributes its readings
    there when there are some. *)
Fixpoint answered (net : nat -> Response) (n : nat) (todo : list string) : list (list DCP) :=
  match todo with
  | [] => []
  | station :: rest =>
      match stationReadings station (net n) with
      | [] => answered net (S n) rest
      | batch => batch :: answered net (S n) rest
      end
  end.

(** The world after [n] runs of [getData] one after the other. *)
Fixpoint cycles (jsDate : Value -> Moment.t) (momentFormat : Value -> string -> string)
    (config : Config) (net : nat -> Response) (n : nat) (w : World) : World :=
  match n with
  | 0 => w
  | S n' => snd (getData jsDate momentFormat config net (cycles jsDate momentFormat config net n' w))
  end.

(** The watermark of [code] in [w'] is a date, not before [a]. *)
Definition notBefore (jsDate : Value -> Moment.t) (code : string) (a : Z) (w' : World) : Prop :=
  exists new b, readFile (lastDateFile code) w' = Some new
                /\ jsDate (VStr new) = Some b /\ (a <= b)%Z.

(** Every run of [m] takes a world to one related to it by [R]. *)
Definition respects (R : World -> World -> Prop) {A} (m : M A) : Prop :=
  forall w, R w (snd (m w)).

(** What a computation can return. *)
Definition returns {A} (m : M A) (P : A -> Prop) : Prop :=
  forall w a, fst (m w) = Done a -> P a.

(** The footprint of the file operations.  [within dir keep w w']: from [w]
    to [w'] no request was issued, an unlimited disk stays unlimited, only the
    directory [dir] changed, nothing was deleted, the files in [keep] have
    their contents, and the trace only grew. *)
Definition within (dir : string) (keep : Path -> Prop) (w w' : World) : Prop :=
  requests w' = requests w
  /\ (quota w = None -> quota w' = None)
  /\ (forall c, c <> dir -> tree w' !! c = tree w !! c)
  /\ (forall c, is_Some (tree w !! c) -> is_Some (tree w' !! c))
  /\ (forall q, keep q -> readFile q w' = readFile q w)
  /\ (forall q, is_Some (readFile q w) -> is_Some (readFile q w'))
  /\ (exists later, trace w' = trace w ++ later).

(** From [w] to [w'] every file other than a watermark file kept what it
    held, possibly with more at its end. *)
Definition appendOnly (w w' : World) : Prop :=
  forall q s, pfile q <> "lastDate.dat" -> readFile q w = Some s ->
    exists more, readFile q w' = Some (s +:+ more).

(** When [m] ends the process, it does so in one of the ways [ok]. *)
Definition fatalOnly (ok : Abort -> Prop) {A} (m : M A) : Prop :=
  forall w f, fst (m w) = Fatal f -> ok f.

(** The two ways the watermark callbacks can end the process. *)
Definition watermarkCallback (f : Abort) : Prop :=
  f = Uncaught ENOENT \/ f = Uncaught TypeError.

(** The reading carries its [dataHora] as a string that is a date. *)
Definition stamped (jsDate : Value -> Moment.t) (dcp : DCP) : Prop :=
  exists s t, prop dcp "dataHora" = VStr s /\ jsDate (VStr s) = Some t.

(** No reading of the batch is later than the last one, as when the batch
    arrives in non-decreasing order of time. *)
Definition latestLast (jsDate : Value -> Moment.t) (readings : list DCP) : Prop :=
  forall lastDcp tl, last readings = Some lastDcp -> instant jsDate lastDcp = Some tl ->
    Forall (fun dcp => forall t, instant jsDate dcp = Some t -> (t <= tl)%Z) readings.

(** The directory of a station has nothing to gain from [readings]: there
    is none, or the directory is not empty and its watermark, when it has
    one, lets no reading through. *)
Definition settled (jsDate : Value -> Moment.t) (readings : list DCP)
    (directory : option (gmap string string)) : Prop :=
  readings = []
  \/ exists d, directory = Some d /\ d <> ∅
               /\ (forall lastDate, d !! "lastDate.dat" = Some lastDate ->
                                    dcpsToSave jsDate lastDate readings = []).

(** The world after the [catch] block of [getData] has handled [error]. *)
Definition afterCatch (error : Exn) (w : World) : World :=
  match error with
  | DisabledDCP message =>
      logEvent (EvConsole ("Could not retrieve data for station with code: " +:+ message)) w
  | _ => w
  end.

(** Number of data lines the trace says were appended. *)
Definition linesWritten (events : list Event) : nat :=
  length (List.filter (fun e => match e with EvLine _ _ => true | _ => false end) events).

(** ** Data of the examples *)
Module Demo.

Definition t1 : string := "2019-05-20 13:00:00.0".
Definition t2 : string := "2019-05-20 13:10:00.0".
Definition t3 : string := "2019-05-20 13:20:00.0".

(** A rain reading of station [code] at [dataHora]. *)
Definition reading (code dataHora chuva : string) : DCP :=
  [("codestacao", VStr code); ("chuva", VNum chuva); ("dataHora", VStr dataHora)].

(** The same with a river level as well. *)
Definition levelReading (code dataHora chuva nivel : string) : DCP :=
  [("codestacao", VStr code); ("chuva", VNum chuva); ("nivel", VNum nivel);
   ("dataHora", VStr dataHora)].

Definition config (stations : list string) : Config :=
  mkConfig "http://cemaden.example/SP_1.json" "shared-data" stations ["codestacao"; "dataHora"].

(** Nothing on disk yet, no limit on writes. *)
Definition emptyWorld : World := mkWorld false true ∅ None 0 [].

(** The target directory exists and holds nothing. *)
Definition readyWorld : World := mkWorld true true ∅ None 0 [].

(** Station [S1] already harvested up to [t1]. *)
Definition harvestedWorld (quota : option nat) : World :=
  mkWorld true true
    {[ "S1" := {[ "lastDate.dat" := t1;
                  "S1_20190520_130000.dat" := "TIMESTAMP;chuva" +:+ CRLF +:+ "05/20/2019 13:00:00;0.2" +:+ CRLF ]} ]}
    quota 0 [].

(** No target directory, and no directory to create it in. *)
Definition blockedWorld : World := mkWorld false false ∅ None 0 [].

Definition always (r : Response) : nat -> Response := fun _ => r.

(** The directory of [S1] exists and is empty. *)
Definition emptyDirWorld : World := mkWorld true true {[ "S1" := ∅ ]} None 0 [].

(** The directory of [S1] holds a data file and no watermark file. *)
Definition orphanWorld : World :=
  mkWorld true true
    {[ "S1" := {[ "S1_20190520_130000.dat" :=
                    "TIMESTAMP;chuva" +:+ CRLF +:+ "05/20/2019 13:00:00;0.2" +:+ CRLF ]} ]}
    None 0 [].

(** The same world once the disk has room again. *)
Definition freeDisk (w : World) : World :=
  mkWorld (root w) (parent w) (tree w) None (requests w) (trace w).

(** Two stations of interest. *)
Definition twoStations : Config := config ["S1"; "S2"].

(** The first request fails, the later ones bring a reading of [S2]. *)
Definition firstRequestFails : nat -> Response := fun n =>
  match n with
  | 0 => Failed
  | _ => Body (Some [reading "S2" t1 "0.2"])
  end.

(** The first answer has a reading of [S1] only, the later ones a reading
    of [S2] only. *)
Definition changingAnswers : nat -> Response := fun n =>
  match n with
  | 0 => Body (Some [reading "S1" t1 "0.2"])
  | _ => Body (Some [reading "S2" t2 "0.4"])
  end.

(** Two readings of [S1], the later one first. *)
Definition latestFirst : Response :=
  Body (Some [reading "S1" t2 "0.4"; reading "S1" t1 "0.2"]).

(** Three readings of [S1], oldest first. *)
Definition threeReadings : Response :=
  Body (Some [reading "S1" t1 "0.2"; reading "S1" t2 "0.4"; reading "S1" t3 "0"]).

End Demo.

(** * Properties *)

(** ** Strings *)

Lemma append_cons (ch : ascii) (a b : string) : String ch a +:+ b = String ch (a +:+ b).
Proof. reflexivity. Qed.

Lemma append_assoc (a b c : string) : (a +:+ b) +:+ c = a +:+ (b +:+ c).
Proof. induction a as [|ch a IH]; [reflexivity | now rewrite !append_cons, IH]. Qed.

Lemma append_nil_r (a : string) : a +:+ "" = a.
Proof. induction a as [|ch a IH]; [reflexivity | now rewrite append_cons, IH]. Qed.

Lemma countChar_append (c : ascii) (a b : string) :
  countChar c (a +:+ b) = countChar c a + countChar c b.
Proof.
  induction a as [|ch a IH]; [reflexivity|].
  rewrite append_cons. simpl. rewrite IH. lia.
Qed.

(** The name of a data file is never that of the watermark file. *)
Lemma dataFile_not_lastDate (code stamp : string) :
  (code +:+ "_" +:+ stamp) +:+ ".dat" <> "lastDate.dat".
Proof.
  intros H. apply (f_equal (countChar "_")) in H.
  rewrite !countChar_append in H. vm_compute (countChar "_" "lastDate.dat") in H.
  simpl in H. lia.
Qed.

(** ** The closed form of the two formatting loops *)

Lemma buildLine_loop_row (dcp : DCP) (arrayKeys : list string) (csvLine : string) :
  buildLine_loop dcp arrayKeys csvLine =
  csvLine +:+ match arrayKeys with
              | [] => ""
              | _ => String.concat ";" (map (cell dcp) arrayKeys) +:+ CRLF
              end.
Proof.
  revert csvLine. induction arrayKeys as [|k rest IH]; intros csvLine; cbn [buildLine_loop].
  - now rewrite append_nil_r.
  - rewrite IH. fold (cell dcp k). rewrite !append_assoc.
    destruct rest as [|k' rest]; [now rewrite append_nil_r|].
    cbn [map String.concat]. now rewrite !append_assoc.
Qed.

Lemma buildHeader_loop_row (arrayKeys : list string) (header : string) :
  buildHeader_loop arrayKeys header =
  header +:+ match arrayKeys with
             | [] => ""
             | _ => String.concat ";" arrayKeys +:+ CRLF
             end.
Proof.
  revert header. induction arrayKeys as [|k rest IH]; intros header; cbn [buildHeader_loop].
  - now rewrite append_nil_r.
  - rewrite IH, !append_assoc.
    destruct rest as [|k' rest]; [now rewrite append_nil_r|].
    cbn [map String.concat]. now rewrite !append_assoc.
Qed.

Lemma buildLine_row (momentFormat : Value -> string -> string) (dcp : DCP) (arrayKeys : list string) :
  buildLine momentFormat dcp arrayKeys =
  row (momentFormat (prop dcp "dataHora") "MM/DD/YYYY HH:mm:ss") (map (cell dcp) (rev arrayKeys)).
Proof.
  unfold buildLine, row. rewrite buildLine_loop_row, append_assoc.
  destruct (rev arrayKeys); reflexivity.
Qed.

Lemma buildHeader_row (arrayKeys : list string) :
  buildHeader arrayKeys = row "TIMESTAMP" (rev arrayKeys).
Proof.
  unfold buildHeader, row. rewrite buildHeader_loop_row.
  destruct (rev arrayKeys); reflexivity.
Qed.

Lemma buildKeys_nil (dcp : DCP) (excludeOptions : list string) :
  (forall k, In k (keysOf dcp) -> In k excludeOptions) ->
  buildKeys dcp excludeOptions = [].
Proof.
  unfold buildKeys. induction (keysOf dcp) as [|k ks IH]; intros H; simpl; [reflexivity|].
  rewrite bool_decide_eq_true_2.
  - simpl. apply IH. intros k' Hk'. apply H. now right.
  - apply list_elem_of_In, H. now left.
Qed.

(** ** The deduplication filter *)

Lemma compareDates_valid (jsDate : Value -> Moment.t) (a b : Value) (x y : Z) :
  jsDate a = Some x -> jsDate b = Some y ->
  compareDates jsDate a b = Z.ltb y x.
Proof.
  intros Ha Hb. unfold compareDates, Moment.isSameOrBefore, Moment.isSame, Moment.isBefore.
  rewrite Ha, Hb.
  destruct (Z.eqb_spec x y), (Z.ltb_spec x y), (Z.ltb_spec y x); simpl; try reflexivity; lia.
Qed.

(** A reading or a watermark that is not a date is never "same or before":
    the reading is kept. *)
Lemma compareDates_invalid (jsDate : Value -> Moment.t) (a b : Value) :
  jsDate a = None \/ jsDate b = None -> compareDates jsDate a b = true.
Proof.
  unfold compareDates, Moment.isSameOrBefore, Moment.isSame, Moment.isBefore.
  intros [H|H]; rewrite H; [reflexivity | destruct (jsDate a); reflexivity].
Qed.

Lemma filter_sublist {A} (f : A -> bool) (l : list A) : sublist (List.filter f l) l.
Proof.
  induction l as [|x l IH]; simpl; [constructor|].
  destruct (f x); now constructor.
Qed.



(** ** Rows with every key excluded *)

(** C10, as stated, fails: the timestamp key [dataHora] is a key like any
    other.  Here every other key is excluded, and the line carries the raw
    [dataHora] as a second cell and ends with CR LF. *)
Lemma timestamp_key_not_excluded_line_terminated :
  let dcp := Demo.reading "S1" Demo.t1 "0.2" in
  let excludeOptions := ["codestacao"; "chuva"] in
  (forall k, In k (keysOf dcp) -> k <> "dataHora" -> In k excludeOptions)
  /\ buildLine Utc.momentFormat dcp (buildKeys dcp excludeOptions)
     = "05/20/2019 13:00:00;2019-05-20 13:00:00.0" +:+ CRLF
  /\ buildLine Utc.momentFormat dcp (buildKeys dcp excludeOptions)
     <> Utc.momentFormat (prop dcp "dataHora") "MM/DD/YYYY HH:mm:ss" +:+ ";"
  /\ buildHeader (buildKeys dcp excludeOptions) = "TIMESTAMP;dataHora" +:+ CRLF.
Proof.
  split; [|split; [|split]].
  - intros k [H|[H|[H|[]]]] Hne; subst k; simpl; tauto.
  - vm_compute. reflexivity.
  - vm_compute. discriminate.
  - vm_compute. reflexivity.
Qed.

(** C10 (amended). When every key of the reading, [dataHora] included, is in
    the excluded fields, the line is the formatted timestamp followed by one
    [;] and the header is [TIMESTAMP;], both without line terminator. *)
Theorem all_keys_excluded_no_terminator
    (momentFormat : Value -> string -> string) (dcp : DCP) (excludeOptions : list string)
    (Hall : forall k, In k (keysOf dcp) -> In k excludeOptions) :
  buildLine momentFormat dcp (buildKeys dcp excludeOptions)
  = momentFormat (prop dcp "dataHora") "MM/DD/YYYY HH:mm:ss" +:+ ";"
  /\ buildHeader (buildKeys dcp excludeOptions) = "TIMESTAMP;".
Proof.
  rewrite (buildKeys_nil _ _ Hall). split; reflexivity.
Qed.

Lemma all_keys_excluded_no_terminator_witness :
  buildLine Utc.momentFormat (Demo.reading "S1" Demo.t1 "0.2")
    (buildKeys (Demo.reading "S1" Demo.t1 "0.2") ["codestacao"; "chuva"; "dataHora"])
  = "05/20/2019 13:00:00;"
  /\ buildHeader (buildKeys (Demo.reading "S1" Demo.t1 "0.2") ["codestacao"; "chuva"; "dataHora"])
     = "TIMESTAMP;".
Proof.
  apply (all_keys_excluded_no_terminator Utc.momentFormat (Demo.reading "S1" Demo.t1 "0.2")
           ["codestacao"; "chuva"; "dataHora"]).
  intros k [H|[H|[H|[]]]]; subst k; simpl; tauto.
Defined.

(** ** The world under [putFile] and the setters *)

Lemma readFile_putFile_eq (p : Path) (s : string) (w : World) :
  is_Some (tree w !! pdir p) -> readFile p (putFile p s w) = Some s.
Proof.
  intros [d Hd]. unfold readFile, putFile. rewrite Hd. simpl.
  rewrite lookup_insert_eq. simpl. apply lookup_insert_eq.
Qed.

Lemma readFile_putFile_ne (p q : Path) (s : string) (w : World) :
  q <> p -> readFile q (putFile p s w) = readFile q w.
Proof.
  intros Hne. unfold readFile, putFile. destruct (tree w !! pdir p) as [d|] eqn:Hd; [|reflexivity].
  simpl. destruct (decide (pdir p = pdir q)) as [Heq|Hdir].
  - rewrite Heq, lookup_insert_eq. rewrite <- Heq, Hd. simpl.
    apply lookup_insert_ne. intros Hf. apply Hne. destruct p, q; simpl in *; congruence.
  - now rewrite lookup_insert_ne.
Qed.

Lemma tree_putFile_ne (p : Path) (s : string) (w : World) (c : string) :
  c <> pdir p -> tree (putFile p s w) !! c = tree w !! c.
Proof.
  intros Hne. unfold putFile. destruct (tree w !! pdir p); [|reflexivity].
  simpl. now rewrite lookup_insert_ne.
Qed.

Lemma tree_putFile_is_Some (p : Path) (s : string) (w : World) (c : string) :
  is_Some (tree (putFile p s w) !! c) <-> is_Some (tree w !! c).
Proof.
  unfold putFile. destruct (tree w !! pdir p) as [d|] eqn:Hd; [|reflexivity].
  simpl. destruct (decide (pdir p = c)) as [<-|Hne].
  - rewrite lookup_insert_eq, Hd. split; eauto.
  - now rewrite lookup_insert_ne.
Qed.

Lemma putFile_id (p : Path) (s : string) (w : World) :
  readFile p w = Some s -> putFile p s w = w.
Proof.
  unfold readFile, putFile. destruct (tree w !! pdir p) as [d|] eqn:Hd; [|reflexivity].
  simpl. intros Hf. rewrite (insert_id d _ _ Hf), (insert_id _ _ _ Hd). now destruct w.
Qed.

Lemma putFile_putFile (p : Path) (s s' : string) (w : World) :
  putFile p s' (putFile p s w) = putFile p s' w.
Proof.
  unfold putFile. destruct (tree w !! pdir p) as [d|] eqn:Hd; simpl; [|now rewrite Hd].
  rewrite lookup_insert_eq. unfold setTree. simpl.
  now rewrite !insert_insert_eq.
Qed.

Lemma readFile_is_Some_putFile (p q : Path) (s : string) (w : World) :
  is_Some (readFile q w) -> is_Some (readFile q (putFile p s w)).
Proof.
  intros Hq. destruct (decide (q = p)) as [->|Hne].
  - rewrite readFile_putFile_eq; [eauto|].
    unfold readFile in Hq. destruct (tree w !! pdir p); [eauto | now destruct Hq].
  - now rewrite readFile_putFile_ne.
Qed.

(** ** Running a [bind] *)

Lemma bind_Done {A B} (m : M A) (k : A -> M B) (w w' : World) (a : A) :
  m w = (Done a, w') -> bind m k w = k a w'.
Proof. unfold bind. now intros ->. Qed.

Lemma bind_Thrown {A B} (m : M A) (k : A -> M B) (w w' : World) (e : Exn) :
  m w = (Thrown e, w') -> bind m k w = (Thrown e, w').
Proof. unfold bind. now intros ->. Qed.

(** ** Relations every step of a computation respects *)

Section Respect.

Variable R : World -> World -> Prop.
Hypothesis R_trans : forall w1 w2 w3, R w1 w2 -> R w2 w3 -> R w1 w3.

Lemma respects_bind {A B} (m : M A) (k : A -> M B) :
  respects R m -> (forall a, respects R (k a)) -> respects R (bind m k).
Proof.
  intros Hm Hk w. unfold bind. specialize (Hm w).
  destruct (m w) as [[a|e|f] w1]; simpl in *; [|assumption..].
  eapply R_trans; [exact Hm | apply Hk].
Qed.

Lemma respects_bind_returns {A B} (m : M A) (k : A -> M B) (P : A -> Prop) :
  respects R m -> returns m P -> (forall a, P a -> respects R (k a)) -> respects R (bind m k).
Proof.
  intros Hm HP Hk w. unfold bind. specialize (Hm w). specialize (HP w).
  destruct (m w) as [[a|e|f] w1]; simpl in *; [|assumption..].
  eapply R_trans; [exact Hm | apply Hk, HP; reflexivity].
Qed.

End Respect.

(** ** The footprint of the file operations *)

Lemma within_refl dir keep w : within dir keep w w.
Proof. unfold within. repeat split; auto. exists []. now rewrite app_nil_r. Qed.

Lemma within_trans dir keep w1 w2 w3 :
  within dir keep w1 w2 -> within dir keep w2 w3 -> within dir keep w1 w3.
Proof.
  intros (A1 & B1 & C1 & D1 & E1 & F1 & l1 & G1) (A2 & B2 & C2 & D2 & E2 & F2 & l2 & G2).
  unfold within. repeat split.
  - congruence.
  - auto.
  - intros c Hc. rewrite C2, C1; auto.
  - auto.
  - intros q Hq. rewrite E2, E1; auto.
  - auto.
  - exists (l1 ++ l2). now rewrite G2, G1, app_assoc.
Qed.

Lemma within_logEvent dir keep e w : within dir keep w (logEvent e w).
Proof. unfold within. simpl. repeat split; auto. now exists [e]. Qed.

Lemma within_putFile dir keep p s w :
  pdir p = dir -> ~ keep p -> within dir keep w (spend (putFile p s w)).
Proof.
  intros Hdir Hkeep. unfold within.
  assert (Hq : quota (putFile p s w) = quota w)
    by (unfold putFile; destruct (tree w !! pdir p); reflexivity).
  assert (Hr : requests (putFile p s w) = requests w)
    by (unfold putFile; destruct (tree w !! pdir p); reflexivity).
  assert (Ht : trace (putFile p s w) = trace w)
    by (unfold putFile; destruct (tree w !! pdir p); reflexivity).
  repeat split; simpl; [| | | | | | exists []; now rewrite app_nil_r].
  - exact Hr.
  - rewrite Hq. now intros ->.
  - intros c Hc. apply tree_putFile_ne. congruence.
  - intros c. apply tree_putFile_is_Some.
  - intros q Hk. apply (readFile_putFile_ne p q s w). intros ->. contradiction.
  - intros q. apply (readFile_is_Some_putFile p q s w).
Qed.

Lemma within_putFile_nospend dir keep p s w :
  pdir p = dir -> ~ keep p -> within dir keep w (putFile p s w).
Proof.
  intros Hdir Hkeep.
  destruct (within_putFile dir keep p s w Hdir Hkeep) as (A & B & C & D & E & F & G).
  unfold within. simpl in *. repeat split; auto.
  unfold putFile; destruct (tree w !! pdir p); simpl; auto.
Qed.

Section Footprint.

Variable momentFormat : Value -> string -> string.
Variable config : Config.
Variable dir : string.
Variable keep : Path -> Prop.

Local Notation "'inside'" := (respects (within dir keep)).

Lemma inside_ret {A} (a : A) : inside (ret a).
Proof. intros w. apply within_refl. Qed.

Lemma inside_throw {A} (e : Exn) : inside (@throw A e).
Proof. intros w. apply within_refl. Qed.

Lemma inside_bind {A B} (m : M A) (k : A -> M B) :
  inside m -> (forall a, inside (k a)) -> inside (bind m k).
Proof. apply respects_bind, within_trans. Qed.

Lemma inside_bind_returns {A B} (m : M A) (k : A -> M B) (P : A -> Prop) :
  inside m -> returns m P -> (forall a, P a -> inside (k a)) -> inside (bind m k).
Proof. apply respects_bind_returns, within_trans. Qed.

Lemma inside_console msg : inside (console msg).
Proof. intros w. apply within_logEvent. Qed.

Lemma inside_existsSync c : inside (existsSync c).
Proof. intros w. apply within_refl. Qed.

Lemma inside_listFileFromDirectory c : inside (listFileFromDirectory c).
Proof.
  intros w. unfold listFileFromDirectory. destruct (tree w !! c); simpl;
    [apply within_refl | apply within_logEvent].
Qed.

Lemma inside_getLastDate p : inside (getLastDate p).
Proof. intros w. unfold getLastDate. destruct (readFile p w); apply within_refl. Qed.

Lemma inside_csvFromFile p : inside (csvFromFile p).
Proof. intros w. unfold csvFromFile. destruct (readFile p w); apply within_refl. Qed.

Lemma inside_mkdirSync : inside (mkdirSync dir).
Proof.
  intros w. unfold mkdirSync. destruct (tree w !! dir) as [d|] eqn:Hd; simpl; [apply within_refl|].
  unfold within. simpl. repeat split; auto; [| | | | now exists [EvMkdir dir]].
  - intros c Hc. now rewrite lookup_insert_ne.
  - intros c Hc. destruct (decide (dir = c)) as [<-|Hne];
      [rewrite lookup_insert_eq; eauto | now rewrite lookup_insert_ne].
  - intros q _. unfold readFile. simpl. destruct (decide (dir = pdir q)) as [He|Hne].
    + rewrite <- He, lookup_insert_eq, Hd. reflexivity.
    + now rewrite lookup_insert_ne.
  - intros q. unfold readFile. simpl. destruct (decide (dir = pdir q)) as [He|Hne].
    + rewrite <- He, Hd. simpl. now intros [? ?].
    + now rewrite lookup_insert_ne.
Qed.

Lemma inside_writeSync ev fd data :
  (forall p, fd = Some p -> pdir p = dir /\ ~ keep p) -> inside (writeSync ev fd data).
Proof.
  intros Hfd w. unfold writeSync. destruct fd as [p|]; [|apply within_refl].
  destruct (Hfd p eq_refl) as [Hdir Hkeep].
  destruct data; try apply within_refl. destruct (diskFull w); simpl; [apply within_refl|].
  eapply within_trans; [apply within_putFile; eassumption | apply within_logEvent].
Qed.

Lemma inside_openFile p data :
  pdir p = dir -> ~ keep p -> inside (openFile config p data).
Proof.
  intros Hdir Hkeep w. unfold openFile. destruct (tree w !! pdir p) as [d|] eqn:Hd; simpl;
    [|apply within_logEvent].
  assert (H1 : within dir keep w (putFile p (default "" (d !! pfile p)) w))
    by now apply within_putFile_nospend.
  destruct (Nat.eqb _ 0); simpl; [|exact H1].
  eapply within_trans; [exact H1|].
  apply inside_bind.
  - apply inside_writeSync. now intros ? [= <-].
  - intros _. apply inside_ret.
Qed.

Lemma inside_saveLastDate p v :
  pdir p = dir -> ~ keep p -> inside (saveLastDate p v).
Proof.
  intros Hdir Hkeep w. unfold saveLastDate. destruct (readFile p w); [|apply within_refl].
  destruct v; try apply within_refl.
  destruct (diskFull w); simpl; [now apply within_putFile_nospend|].
  eapply within_trans; [apply within_putFile; eassumption | apply within_logEvent].
Qed.

Lemma inside_writeLines fd dcps :
  (forall p, fd = Some p -> pdir p = dir /\ ~ keep p) ->
  inside (writeLines momentFormat config fd dcps).
Proof.
  intros Hfd. induction dcps as [|dcp rest IH]; simpl.
  - apply inside_ret.
  - apply inside_bind; [now apply inside_writeSync | intros _; exact IH].
Qed.

Lemma inside_closeSync fd : inside (closeSync fd).
Proof. destruct fd; [apply inside_ret | apply inside_throw]. Qed.

End Footprint.

Lemma openFile_returns config p data :
  returns (openFile config p data) (fun fd => fd = Some p \/ fd = None).
Proof.
  intros w fd. unfold openFile. destruct (tree w !! pdir p); simpl; [|intros [= <-]; now right].
  destruct (Nat.eqb _ 0); [|intros [= <-]; now left].
  unfold bind. destruct (writeSync _ _ _ _) as [[[]|e|f] w1]; simpl; [|discriminate..].
  intros [= <-]. now left.
Qed.

(** ** One station *)

Section Station.

Variable jsDate : Value -> Moment.t.
Variable momentFormat : Value -> string -> string.
Variable config : Config.
Variable net : nat -> Response.

Lemma storeBatch_target_not_lastDate (dcpName : string) (lastDcp : DCP) :
  mkPath dcpName (buildFileName momentFormat lastDcp +:+ ".dat") <> lastDateFile dcpName.
Proof.
  unfold lastDateFile, buildFileName. intros [= H]. now apply dataFile_not_lastDate in H.
Qed.

Lemma storeBatch_within (keep : Path -> Prop) dcpName firstDcp lastDcp dcps :
  ~ keep (mkPath dcpName (buildFileName momentFormat lastDcp +:+ ".dat")) ->
  respects (within dcpName keep) (storeBatch momentFormat config dcpName firstDcp lastDcp dcps).
Proof.
  intros Hkeep. unfold storeBatch.
  eapply inside_bind_returns; [now apply inside_openFile | apply openFile_returns |].
  intros fd Hfd. cbv beta in Hfd.
  apply inside_bind; [apply inside_csvFromFile|]. intros _.
  apply inside_bind; [|intros _; apply inside_closeSync].
  apply inside_writeLines. intros p ->. destruct Hfd as [[= ->]|[=]]. now split.
Qed.

Lemma persistDCPs_within (keep : Path -> Prop) (dir : string) (dcps : list DCP) :
  (forall lastDcp, last dcps = Some lastDcp -> toStr (prop lastDcp "codestacao") = dir) ->
  (forall q, keep q -> pdir q <> dir) ->
  respects (within dir keep) (persistDCPs jsDate momentFormat config dcps).
Proof.
  intros Hdir Hkeep. unfold persistDCPs.
  destruct (head dcps) as [firstDcp|]; [|apply inside_throw].
  destruct (last dcps) as [lastDcp|]; [|apply inside_throw].
  rewrite (Hdir lastDcp eq_refl).
  assert (Hin : forall f, ~ keep (mkPath dir f)) by (intros f Hf; now apply Hkeep in Hf).
  apply inside_bind; [apply inside_existsSync|]. intros present.
  apply inside_bind.
  - destruct present; simpl; [apply inside_listFileFromDirectory|].
    apply inside_bind; [apply inside_console|]. intros _.
    apply inside_bind; [apply inside_mkdirSync|]. intros _.
    apply inside_bind; [|intros _; apply inside_ret].
    apply inside_openFile; [reflexivity | apply Hin].
  - intros files. destruct (Nat.ltb 0 (length files)).
    + apply inside_bind; [apply inside_getLastDate|]. intros lastDate.
      destruct (head _); [|apply inside_ret]. destruct (last _); [|apply inside_ret].
      apply inside_bind; [apply inside_saveLastDate; [reflexivity | apply Hin]|]. intros _.
      now apply storeBatch_within.
    + now apply storeBatch_within.
Qed.

Lemma stationReadings_code (station : string) (r : Response) (dcp : DCP) :
  In dcp (stationReadings station r) -> prop dcp "codestacao" = VStr station.
Proof.
  destruct r as [|[arr|]]; simpl; [tauto| |tauto].
  intros H. apply filter_In in H as [_ H]. now apply bool_decide_eq_true in H.
Qed.

Lemma last_In {A} (l : list A) (x : A) : last l = Some x -> In x l.
Proof.
  induction l as [|y [|z l] IH]; simpl; [discriminate|intros [= ->]; now left|].
  intros H. right. now apply IH.
Qed.

Lemma getDCPs_world (station : string) (w : World) :
  snd (getDCPs net station w) = countRequest w.
Proof.
  unfold getDCPs. destruct (net (requests w)) as [|[arr|]]; try reflexivity.
  destruct (Nat.eqb _ 0); reflexivity.
Qed.

Lemma getDCPs_outcome (station : string) (w : World) :
  match fst (getDCPs net station w) with
  | Done dcps => dcps = stationReadings station (net (requests w)) /\ dcps <> []
  | Thrown e =>
      stationReadings station (net (requests w)) = []
      /\ e = match net (requests w) with
             | Failed => TransportError
             | Body None => TypeError
             | Body (Some _) => DisabledDCP station
             end
  | Fatal _ => False
  end.
Proof.
  unfold getDCPs, stationReadings. destruct (net (requests w)) as [|[arr|]]; simpl; auto.
  destruct (List.filter _ arr) as [|dcp l]; simpl; auto.
Qed.

(** Whatever happens, handling a station costs one request and stays in the
    directory of the station. *)
Lemma processStation_within (keep : Path -> Prop) (station : string) (w : World) :
  (forall q, keep q -> pdir q <> station) ->
  within station keep (countRequest w)
    (snd (processStation jsDate momentFormat config net station w)).
Proof.
  intros Hkeep. unfold processStation, bind at 1.
  pose proof (getDCPs_world station w) as Hw. pose proof (getDCPs_outcome station w) as Ho.
  destruct (getDCPs net station w) as [[dcps|e|f] w1]; simpl in *; subst w1;
    try apply within_refl.
  destruct Ho as [-> _].
  apply (inside_bind station keep); [|intros _; apply inside_ret].
  apply persistDCPs_within; [|exact Hkeep].
  intros l Hl. apply last_In, stationReadings_code in Hl. now rewrite Hl.
Qed.

Lemma getDCPs_Done (station : string) (w : World) (dcps : list DCP) :
  stationReadings station (net (requests w)) = dcps -> dcps <> [] ->
  getDCPs net station w = (Done dcps, countRequest w).
Proof.
  intros Hr Hne. pose proof (getDCPs_outcome station w) as Ho.
  pose proof (getDCPs_world station w) as Hw.
  destruct (getDCPs net station w) as [[batch|e|f] w1]; simpl in *; subst w1.
  - destruct Ho as [-> _]. now rewrite Hr.
  - destruct Ho as [Ho _]. congruence.
  - contradiction.
Qed.

Lemma processStation_persist (station : string) (w : World) (dcps : list DCP) :
  stationReadings station (net (requests w)) = dcps -> dcps <> [] ->
  processStation jsDate momentFormat config net station w =
  (persistDCPs jsDate momentFormat config dcps ;;; ret dcps)%cemaden (countRequest w).
Proof.
  intros Hr Hne. unfold processStation.
  now rewrite (bind_Done _ _ _ _ _ (getDCPs_Done station w dcps Hr Hne)).
Qed.

Lemma last_code (station : string) (r : Response) (lastDcp : DCP) :
  last (stationReadings station r) = Some lastDcp ->
  toStr (prop lastDcp "codestacao") = station.
Proof. intros H. apply last_In, stationReadings_code in H. now rewrite H. Qed.

End Station.

(** ** The loop over the stations *)

Section Cycle.

Variable jsDate : Value -> Moment.t.
Variable momentFormat : Value -> string -> string.
Variable config : Config.
Variable net : nat -> Response.

Local Notation "'processStation''" := (processStation jsDate momentFormat config net).
Local Notation "'stationTurn''" := (stationTurn jsDate momentFormat config net).
Local Notation "'stationLoop''" := (stationLoop jsDate momentFormat config net).
Local Notation "'getData''" := (getData jsDate momentFormat config net).

Lemma stationTurn_cases (outputDCP : list (list DCP)) (station : string) (w : World) :
  match processStation' station w with
  | (Done dcps, w') => stationTurn' outputDCP station w = (Done (outputDCP ++ [dcps]), w')
  | (Thrown e, w') => stationTurn' outputDCP station w = (Done outputDCP, afterCatch e w')
  | (Fatal f, w') => stationTurn' outputDCP station w = (Fatal f, w')
  end.
Proof.
  unfold stationTurn, tryCatch, bind, console, modify, ret.
  destruct (processStation' station w) as [[dcps|e|f] w']; try reflexivity.
  destruct e; reflexivity.
Qed.

Lemma stationTurn_not_Thrown outputDCP station w e :
  fst (stationTurn' outputDCP station w) <> Thrown e.
Proof.
  pose proof (stationTurn_cases outputDCP station w) as H.
  destruct (processStation' station w) as [[dcps|e'|f] w']; rewrite H; discriminate.
Qed.

Lemma stationTurn_within (keep : Path -> Prop) outputDCP station w :
  (forall q, keep q -> pdir q <> station) ->
  within station keep (countRequest w) (snd (stationTurn' outputDCP station w)).
Proof.
  intros Hkeep.
  pose proof (stationTurn_cases outputDCP station w) as H.
  pose proof (processStation_within jsDate momentFormat config net keep station w Hkeep) as Hw.
  destruct (processStation' station w) as [[dcps|e|f] w']; rewrite H; simpl in *; try exact Hw.
  eapply within_trans; [exact Hw|]. destruct e; try apply within_refl. apply within_logEvent.
Qed.

Lemma stationLoop_not_Thrown todo outputDCP w e :
  fst (stationLoop' todo outputDCP w) <> Thrown e.
Proof.
  revert outputDCP w. induction todo as [|station rest IH]; intros outputDCP w; simpl; [discriminate|].
  unfold bind. pose proof (stationTurn_not_Thrown outputDCP station w) as Ht.
  destruct (stationTurn' outputDCP station w) as [[out|e'|f] w']; simpl in *;
    [apply IH | now elim (Ht e') | discriminate].
Qed.

Lemma getData_unfold w :
  getData' w =
  if root w then stationLoop' (stations config) [] w
  else if parent w then
    stationLoop' (stations config) []
      (logEvent EvMkdirRoot
         (setRoot (logEvent (EvConsole ("The directory " +:+ dataDir config
                                          +:+ " does not exist. Creating...")) w)))
  else (Thrown ENOENT,
        logEvent (EvConsole ("The directory " +:+ dataDir config
                               +:+ " does not exist. Creating...")) w).
Proof.
  unfold getData, bind, existsSyncRoot, mkdirSyncRoot, console, modify, ret.
  destruct (root w); [reflexivity|]. simpl. destruct (parent w); reflexivity.
Qed.

(** [getData] rejects in one case only: the target directory is missing and
    cannot be created.  Nothing has been requested or written by then. *)
Lemma getData_Thrown w e :
  fst (getData' w) = Thrown e ->
  root w = false /\ parent w = false /\ e = ENOENT
  /\ snd (getData' w)
     = logEvent (EvConsole ("The directory " +:+ dataDir config
                              +:+ " does not exist. Creating...")) w.
Proof.
  rewrite getData_unfold. destruct (root w).
  - intros H. now apply stationLoop_not_Thrown in H.
  - destruct (parent w).
    + intros H. now apply stationLoop_not_Thrown in H.
    + simpl. intros [= <-]. auto.
Qed.

Lemma getData_blocked w :
  root w = false -> parent w = false ->
  getData' w
  = (Thrown ENOENT,
     logEvent (EvConsole ("The directory " +:+ dataDir config
                            +:+ " does not exist. Creating...")) w).
Proof. intros Hr Hp. now rewrite getData_unfold, Hr, Hp. Qed.

(** When [getData] does not reject, it is the loop over the stations, run
    from a world with the same files, quota and request count. *)
Lemma getData_loop w :
  (root w = true \/ parent w = true) ->
  exists w0 evs,
    getData' w = stationLoop' (stations config) [] w0
    /\ tree w0 = tree w /\ quota w0 = quota w /\ requests w0 = requests w
    /\ trace w0 = trace w ++ evs /\ linesWritten evs = 0.
Proof.
  intros H. rewrite getData_unfold. destruct (root w).
  - exists w, []. rewrite app_nil_r. auto 10.
  - destruct H as [H|H]; [discriminate|]. rewrite H.
    eexists _, [_; _]. split; [reflexivity|]. simpl. rewrite <- app_assoc. auto 10.
Qed.

Lemma getData_cases w :
  (exists w0 evs,
     getData' w = stationLoop' (stations config) [] w0
     /\ tree w0 = tree w /\ quota w0 = quota w /\ requests w0 = requests w
     /\ trace w0 = trace w ++ evs /\ linesWritten evs = 0)
  \/ (root w = false /\ parent w = false
      /\ getData' w
         = (Thrown ENOENT,
            logEvent (EvConsole ("The directory " +:+ dataDir config
                                   +:+ " does not exist. Creating...")) w)).
Proof.
  destruct (root w) eqn:Hr; [left; apply getData_loop; auto|].
  destruct (parent w) eqn:Hp; [left; apply getData_loop; auto|].
  right. split; [reflexivity|]. split; [reflexivity|]. now apply getData_blocked.
Qed.

Lemma getData_Done w dcps :
  fst (getData' w) = Done dcps ->
  exists w0 evs,
    getData' w = stationLoop' (stations config) [] w0
    /\ tree w0 = tree w /\ quota w0 = quota w /\ requests w0 = requests w
    /\ trace w0 = trace w ++ evs /\ linesWritten evs = 0.
Proof.
  intros H. destruct (getData_cases w) as [Hl|(_ & _ & Hb)]; [exact Hl|].
  rewrite Hb in H. discriminate.
Qed.

Lemma stationLoop_requests todo outputDCP w dcps :
  fst (stationLoop' todo outputDCP w) = Done dcps ->
  requests (snd (stationLoop' todo outputDCP w)) = requests w + length todo.
Proof.
  revert outputDCP w. induction todo as [|station rest IH]; intros outputDCP w; simpl.
  - intros _. lia.
  - unfold bind.
    pose proof (stationTurn_within (fun _ => False) outputDCP station w) as Hw.
    destruct (stationTurn' outputDCP station w) as [[out|e'|f] w']; simpl in *; try discriminate.
    intros H. rewrite (IH _ _ H). destruct Hw as [Hr _]; [tauto|]. rewrite Hr. simpl. lia.
Qed.

Lemma stationLoop_unlimited todo outputDCP w :
  quota w = None -> quota (snd (stationLoop' todo outputDCP w)) = None.
Proof.
  revert outputDCP w. induction todo as [|station rest IH]; intros outputDCP w Hq; [exact Hq|].
  simpl. unfold bind.
  destruct (stationTurn_within (fun _ => False) outputDCP station w) as (_ & Hq1 & _); [tauto|].
  specialize (Hq1 Hq).
  destruct (stationTurn' outputDCP station w) as [[out|e'|f] w']; simpl in *; auto.
Qed.

Lemma getData_unlimited w :
  quota w = None -> quota (snd (getData' w)) = None.
Proof.
  intros Hq. destruct (getData_cases w) as [(w0 & evs & -> & _ & Hq0 & _)|(_ & _ & ->)].
  - apply stationLoop_unlimited. congruence.
  - exact Hq.
Qed.

Lemma stationLoop_batches todo outputDCP w dcps :
  fst (stationLoop' todo outputDCP w) = Done dcps ->
  exists added,
    dcps = outputDCP ++ added
    /\ length added <= length todo
    /\ Forall (fun batch => batch <> [] /\ exists station n,
                 In station todo /\ batch = stationReadings station (net n)) added.
Proof.
  revert outputDCP w. induction todo as [|station rest IH]; intros outputDCP w; simpl.
  - intros [= <-]. exists []. rewrite app_nil_r. split; [reflexivity|]. split; [simpl; lia | constructor].
  - unfold bind. pose proof (stationTurn_cases outputDCP station w) as Ht.
    unfold processStation, bind at 1 in Ht.
    pose proof (getDCPs_outcome net station w) as Ho.
    destruct (getDCPs net station w) as [[batch|e|f] w1]; simpl in *.
    + destruct Ho as [Hb Hne]. unfold bind in Ht.
      destruct (persistDCPs _ _ _ batch w1) as [[[]|e|f] w2]; simpl in Ht; rewrite Ht; simpl.
      * intros H. destruct (IH _ _ H) as (added & -> & Hlen & Hall).
        exists (batch :: added). rewrite <- app_assoc. simpl.
        split; [reflexivity|]. split; [lia|].
        constructor; [split; [exact Hne | exists station, (requests w); auto]|].
        eapply Forall_impl; [exact Hall|]. intros b (? & st & n & ? & ?). split; eauto 6.
      * intros H. destruct (IH _ _ H) as (added & -> & Hlen & Hall).
        exists added. split; [reflexivity|]. split; [lia|].
        eapply Forall_impl; [exact Hall|]. intros b (? & st & n & ? & ?). split; eauto 6.
      * discriminate.
    + rewrite Ht. simpl. intros H. destruct (IH _ _ H) as (added & -> & Hlen & Hall).
      exists added. split; [reflexivity|]. split; [lia|].
      eapply Forall_impl; [exact Hall|]. intros b (? & st & n & ? & ?). split; eauto 6.
    + contradiction.
Qed.

End Cycle.

(** ** Errors of the fetch *)

(** C3, as stated, fails: the first station's request fails in transport,
    yet [getData] goes on to station [S2], stores its reading and resolves;
    the wrapper exits with code 0. *)
Lemma transport_error_does_not_abort :
  let run := getData Utc.jsDate Utc.momentFormat Demo.twoStations Demo.firstRequestFails
               Demo.emptyWorld in
  fst run = Done [[Demo.reading "S2" Demo.t1 "0.2"]]
  /\ readFile (lastDateFile "S2") (snd run) = Some Demo.t1
  /\ requests (snd run) = 2
  /\ exitCode (fst (example_cemaden Utc.jsDate Utc.momentFormat Demo.twoStations
                      Demo.firstRequestFails Demo.emptyWorld)) = 0%Z.
Proof. vm_compute. repeat split; reflexivity. Qed.

(** C3 (amended). Whatever makes the fetch of a station fail (a transport
    error, a body without readings array, or no reading of the station), the
    [catch] block swallows it: the loop carries on with the remaining
    stations from the world after the request, with one console line in the
    no-reading case and nothing at all in the others.  The loop over the
    stations never rejects: [getData] rejects only before the loop, when the
    target directory is missing and cannot be created, and it has then
    requested nothing and touched no file. *)
Theorem fetch_error_skips_station
    (jsDate : Value -> Moment.t) (momentFormat : Value -> string -> string)
    (config : Config) (net : nat -> Response)
    (station : string) (rest : list string) (outputDCP : list (list DCP)) (w : World) (e : Exn)
    (Hfetch : fst (getDCPs net station w) = Thrown e) :
  stationLoop jsDate momentFormat config net (station :: rest) outputDCP w
  = stationLoop jsDate momentFormat config net rest outputDCP (afterCatch e (countRequest w))
  /\ match net (requests w) with
     | Failed => e = TransportError /\ afterCatch e (countRequest w) = countRequest w
     | Body None => e = TypeError /\ afterCatch e (countRequest w) = countRequest w
     | Body (Some _) =>
         e = DisabledDCP station
         /\ afterCatch e (countRequest w)
            = logEvent (EvConsole ("Could not retrieve data for station with code: " +:+ station))
                (countRequest w)
     end
  /\ (forall todo out w0 e',
        fst (stationLoop jsDate momentFormat config net todo out w0) <> Thrown e')
  /\ (forall w0 e',
        fst (getData jsDate momentFormat config net w0) = Thrown e' ->
        root w0 = false /\ parent w0 = false /\ e' = ENOENT
        /\ requests (snd (getData jsDate momentFormat config net w0)) = requests w0
        /\ tree (snd (getData jsDate momentFormat config net w0)) = tree w0).
Proof.
  split; [|split; [|split]].
  - simpl. unfold bind at 1.
    pose proof (stationTurn_cases jsDate momentFormat config net outputDCP station w) as Ht.
    unfold processStation, bind at 1 in Ht.
    pose proof (getDCPs_world net station w) as Hw.
    destruct (getDCPs net station w) as [[dcps|e0|f] w1]; simpl in *; try discriminate.
    injection Hfetch as ->. subst w1. now rewrite Ht.
  - pose proof (getDCPs_outcome net station w) as Ho.
    rewrite Hfetch in Ho. destruct Ho as [_ ->].
    destruct (net (requests w)) as [|[arr|]]; split; reflexivity.
  - intros todo out w0 e'. apply stationLoop_not_Thrown.
  - intros w0 e' H. apply getData_Thrown in H as (Hr & Hp & He & Hw).
    rewrite Hw. auto.
Qed.

Lemma fetch_error_skips_station_witness :
  stationLoop Utc.jsDate Utc.momentFormat Demo.twoStations Demo.firstRequestFails
    ["S1"; "S2"] [] Demo.readyWorld
  = stationLoop Utc.jsDate Utc.momentFormat Demo.twoStations Demo.firstRequestFails
      ["S2"] [] (countRequest Demo.readyWorld).
Proof.
  apply (fetch_error_skips_station Utc.jsDate Utc.momentFormat Demo.twoStations
           Demo.firstRequestFails "S1" ["S2"] [] Demo.readyWorld TransportError).
  reflexivity.
Defined.

(** ** Requests per cycle *)

(** C4, as stated, fails: with two stations the cycle issues two requests,
    and the second station is matched against the second answer (the first
    answer has no reading of [S2]). *)
Lemma two_stations_two_requests :
  let run := getData Utc.jsDate Utc.momentFormat Demo.twoStations Demo.changingAnswers
               Demo.emptyWorld in
  requests (snd run) = 2
  /\ stationReadings "S2" (Demo.changingAnswers 0) = []
  /\ fst run = Done [[Demo.reading "S1" Demo.t1 "0.2"]; [Demo.reading "S2" Demo.t2 "0.4"]].
Proof. vm_compute. repeat split; reflexivity. Qed.

(** C4 (amended). A cycle that runs to its end has fetched the endpoint once
    for each configured station; every call of [getDCPs] issues one request
    and matches its station against the answer to that request. *)
Theorem one_request_per_station
    (jsDate : Value -> Moment.t) (momentFormat : Value -> string -> string)
    (config : Config) (net : nat -> Response) (w : World) (dcps : list (list DCP))
    (Hdone : fst (getData jsDate momentFormat config net w) = Done dcps) :
  requests (snd (getData jsDate momentFormat config net w))
  = requests w + length (stations config)
  /\ (forall station w1 batch,
        fst (getDCPs net station w1) = Done batch ->
        batch = stationReadings station (net (requests w1))
        /\ requests (snd (getDCPs net station w1)) = S (requests w1)).
Proof.
  split.
  - destruct (getData_Done _ _ _ _ _ _ Hdone) as (w0 & evs & Hrun & _ & _ & Hreq & _).
    rewrite Hrun in *. rewrite (stationLoop_requests _ _ _ _ _ _ _ _ Hdone). now rewrite Hreq.
  - intros station w1 batch H. pose proof (getDCPs_outcome net station w1) as Ho.
    rewrite H in Ho. rewrite getDCPs_world. split; [apply Ho | reflexivity].
Qed.

Lemma one_request_per_station_witness :
  requests (snd (getData Utc.jsDate Utc.momentFormat Demo.twoStations
                   (Demo.always Demo.threeReadings) Demo.emptyWorld)) = 0 + 2.
Proof.
  eapply (one_request_per_station Utc.jsDate Utc.momentFormat Demo.twoStations
            (Demo.always Demo.threeReadings) Demo.emptyWorld).
  vm_compute. reflexivity.
Defined.

(** ** What the file operations do exactly *)

Section Exact.

Variable jsDate : Value -> Moment.t.
Variable momentFormat : Value -> string -> string.
Variable config : Config.

Local Notation "'lineOf' dcp" := (buildLine momentFormat dcp (buildKeys dcp (exclude config)))
  (at level 10).

Lemma diskFull_putFile p s w : diskFull (putFile p s w) = diskFull w.
Proof. unfold putFile, diskFull. destruct (tree w !! pdir p); reflexivity. Qed.

Lemma quota_putFile p s w : quota (putFile p s w) = quota w.
Proof. unfold putFile. destruct (tree w !! pdir p); reflexivity. Qed.

Lemma trace_putFile p s w : trace (putFile p s w) = trace w.
Proof. unfold putFile. destruct (tree w !! pdir p); reflexivity. Qed.

Lemma diskFull_unlimited w : quota w = None -> diskFull w = false.
Proof. unfold diskFull. now intros ->. Qed.

Lemma readFile_dir p w s : readFile p w = Some s -> is_Some (tree w !! pdir p).
Proof. unfold readFile. destruct (tree w !! pdir p); [eauto | discriminate]. Qed.

Lemma openFile_existing p header w d :
  tree w !! pdir p = Some d ->
  openFile config p (VStr header) w =
  match d !! pfile p with
  | Some (String c s) => (Done (Some p), w)
  | _ => if diskFull w then (Thrown ENOSPC, putFile p "" w)
         else (Done (Some p), logEvent (EvHeader p header) (spend (putFile p header w)))
  end.
Proof.
  intros Hd. unfold openFile. rewrite Hd.
  destruct (d !! pfile p) as [[|c s]|] eqn:Hf; simpl.
  - unfold bind, writeSync, ret. rewrite diskFull_putFile.
    destruct (diskFull w); [reflexivity|].
    rewrite readFile_putFile_eq by eauto. simpl. rewrite putFile_putFile. reflexivity.
  - rewrite putFile_id; [reflexivity|]. unfold readFile. rewrite Hd. exact Hf.
  - unfold bind, writeSync, ret. rewrite diskFull_putFile.
    destruct (diskFull w); [reflexivity|].
    rewrite readFile_putFile_eq by eauto. simpl. rewrite putFile_putFile. reflexivity.
Qed.

Lemma writeLines_unlimited p dcps w old :
  quota w = None -> readFile p w = Some old ->
  let run := writeLines momentFormat config (Some p) dcps w in
  fst run = Done tt
  /\ readFile p (snd run) = Some (old +:+ String.concat "" (map (fun dcp => lineOf dcp) dcps))
  /\ quota (snd run) = None
  /\ trace (snd run) = trace w ++ map (fun dcp => EvLine p (lineOf dcp)) dcps.
Proof.
  revert w old. induction dcps as [|dcp rest IH]; intros w old Hq Hold; simpl.
  - rewrite append_nil_r, app_nil_r. auto.
  - unfold bind, writeSync. rewrite (diskFull_unlimited w Hq), Hold. simpl.
    set (w1 := logEvent _ _).
    assert (Hq1 : quota w1 = None) by (unfold w1; simpl; now rewrite quota_putFile, Hq).
    assert (Hold1 : readFile p w1 = Some (old +:+ lineOf dcp)).
    { unfold w1. apply (readFile_putFile_eq p _ w). now apply readFile_dir in Hold. }
    destruct (IH w1 _ Hq1 Hold1) as (A & B & C & D).
    split; [exact A|]. split; [|split; [exact C|]].
    + rewrite B. f_equal. rewrite append_assoc. f_equal.
      destruct rest; [now rewrite append_nil_r | reflexivity].
    + rewrite D. unfold w1. simpl. rewrite trace_putFile, <- app_assoc. reflexivity.
Qed.

(** With room on the disk the first write goes through; on a full disk the
    loop stops at its first line. *)
Lemma writeLines_diskFull p dcp rest w :
  diskFull w = true ->
  writeLines momentFormat config (Some p) (dcp :: rest) w = (Thrown ENOSPC, w).
Proof. intros H. simpl. unfold bind, writeSync. now rewrite H. Qed.

Lemma storeBatch_unlimited dcpName firstDcp lastDcp dcps w d :
  quota w = None -> tree w !! dcpName = Some d ->
  let target := mkPath dcpName (buildFileName momentFormat lastDcp +:+ ".dat") in
  let header := buildHeader (buildKeys firstDcp (exclude config)) in
  let start := match d !! pfile target with Some (String c s) => String c s | _ => header end in
  let run := storeBatch momentFormat config dcpName firstDcp lastDcp dcps w in
  fst run = Done tt
  /\ readFile target (snd run)
     = Some (start +:+ String.concat "" (map (fun dcp => lineOf dcp) dcps))
  /\ quota (snd run) = None.
Proof.
  intros Hq Hd target header start run. unfold run, storeBatch. fold target. fold header.
  pose proof (openFile_existing target header w d Hd) as Hopen.
  rewrite (diskFull_unlimited w Hq) in Hopen.
  assert (Hgo : forall w1, quota w1 = None -> readFile target w1 = Some start ->
            let run1 := (csvFromFile target ;;; writeLines momentFormat config (Some target) dcps ;;;
                         closeSync (Some target))%cemaden w1 in
            fst run1 = Done tt
            /\ readFile target (snd run1)
               = Some (start +:+ String.concat "" (map (fun dcp => lineOf dcp) dcps))
            /\ quota (snd run1) = None).
  { intros w1 Hq1 Hs1.
    rewrite (bind_Done _ _ w1 w1 tt) by (unfold csvFromFile; now rewrite Hs1).
    destruct (writeLines_unlimited target dcps w1 start Hq1 Hs1) as (A & B & C & _).
    destruct (writeLines _ _ _ _ w1) as [r w2] eqn:Hrun. simpl in A, B, C. subst r.
    rewrite (bind_Done _ _ w1 w2 tt Hrun). simpl. auto. }
  unfold start in *. destruct (d !! pfile target) as [[|c s]|] eqn:Hf;
    rewrite (bind_Done _ _ _ _ _ Hopen).
  - apply Hgo; simpl; [now rewrite quota_putFile, Hq|].
    apply (readFile_putFile_eq target); simpl; eauto.
  - apply Hgo; [exact Hq|]. unfold readFile. simpl. rewrite Hd. exact Hf.
  - apply Hgo; simpl; [now rewrite quota_putFile, Hq|].
    apply (readFile_putFile_eq target); simpl; eauto.
Qed.

(** On a full disk a non-empty batch is refused before any line is written. *)
Lemma storeBatch_diskFull dcpName firstDcp lastDcp dcps w :
  diskFull w = true -> dcps <> [] -> is_Some (tree w !! dcpName) ->
  exists w', storeBatch momentFormat config dcpName firstDcp lastDcp dcps w = (Thrown ENOSPC, w')
             /\ trace w' = trace w.
Proof.
  intros Hfull Hne [d Hd]. unfold storeBatch.
  set (target := mkPath dcpName _). set (header := buildHeader _).
  assert (Hopen : openFile config target (VStr header) w =
                  match d !! pfile target with
                  | Some (String c s) => (Done (Some target), w)
                  | _ => (Thrown ENOSPC, putFile target "" w)
                  end).
  { rewrite (openFile_existing target header w d Hd), Hfull. reflexivity. }
  assert (Hpd : pdir target = dcpName) by reflexivity. clearbody target.
  destruct (d !! pfile target) as [[|c s]|] eqn:Hfile.
  - rewrite (bind_Thrown _ _ _ _ _ Hopen). eexists. split; [reflexivity | apply trace_putFile].
  - rewrite (bind_Done _ _ _ _ _ Hopen).
    erewrite (bind_Done (csvFromFile target));
      [|unfold csvFromFile, readFile; rewrite Hpd, Hd; simpl; rewrite Hfile; reflexivity].
    destruct dcps as [|dcp rest]; [congruence|].
    rewrite (bind_Thrown _ _ _ _ _ (writeLines_diskFull target dcp rest w Hfull)). eauto.
  - rewrite (bind_Thrown _ _ _ _ _ Hopen). eexists. split; [reflexivity | apply trace_putFile].
Qed.

(** *** The four ways through [persistDCPs] *)

Lemma listing_nonempty (d : gmap string string) (k v : string) :
  d !! k = Some v -> Nat.ltb 0 (length (map fst (map_to_list d))) = true.
Proof.
  intros H. apply Nat.ltb_lt. rewrite length_map.
  destruct (map_to_list d) eqn:Hl; simpl; [|lia].
  apply map_to_list_empty_iff in Hl. subst d. now rewrite lookup_empty in H.
Qed.

Lemma persistDCPs_fresh dcps firstDcp lastDcp dir w :
  head dcps = Some firstDcp -> last dcps = Some lastDcp ->
  toStr (prop lastDcp "codestacao") = dir ->
  tree w !! dir = None ->
  persistDCPs jsDate momentFormat config dcps w =
  (console ("The directory " +:+ dataDir config +:+ "/" +:+ dir +:+ " does not exist. Creating...") ;;;
   mkdirSync dir ;;;
   openFile config (lastDateFile dir) (prop lastDcp "dataHora") ;;;
   storeBatch momentFormat config dir firstDcp lastDcp dcps)%cemaden w.
Proof.
  intros Hf Hl Hdir Hnone. unfold persistDCPs. rewrite Hf, Hl, Hdir.
  unfold bind at 1, existsSync. rewrite Hnone.
  rewrite bool_decide_eq_false_2 by (intros [? ?]; discriminate). simpl negb. cbv iota.
  unfold bind. simpl.
  destruct (mkdirSync dir _) as [[[]|e|f] w1]; try reflexivity.
  destruct (openFile _ _ _ w1) as [[fd|e|f] w2]; reflexivity.
Qed.

(** On the first ingestion, with room on the disk, the batch is stored in a
    directory that holds the watermark file and nothing else. *)
Lemma persistDCPs_fresh_unlimited dcps firstDcp lastDcp dir stamp w :
  head dcps = Some firstDcp -> last dcps = Some lastDcp ->
  toStr (prop lastDcp "codestacao") = dir ->
  prop lastDcp "dataHora" = VStr stamp ->
  tree w !! dir = None -> quota w = None ->
  exists w3,
    persistDCPs jsDate momentFormat config dcps w
    = storeBatch momentFormat config dir firstDcp lastDcp dcps w3
    /\ tree w3 !! dir = Some {[ "lastDate.dat" := stamp ]}
    /\ quota w3 = None.
Proof.
  intros Hf Hl Hdir Hstamp Hfresh Hquota.
  exists (logEvent (EvHeader (lastDateFile dir) stamp)
            (spend (putFile (lastDateFile dir) stamp
               (logEvent (EvMkdir dir) (setTree (<[dir := ∅]> (tree w))
                  (logEvent (EvConsole ("The directory " +:+ dataDir config +:+ "/"
                      +:+ dir +:+ " does not exist. Creating...")) w)))))).
  split; [|split].
  - rewrite (persistDCPs_fresh dcps firstDcp lastDcp dir w Hf Hl Hdir Hfresh).
    erewrite (bind_Done (console _)); [|reflexivity].
    erewrite (bind_Done (mkdirSync dir));
      [|unfold mkdirSync; simpl; rewrite Hfresh; reflexivity].
    erewrite (bind_Done (openFile _ _ _)); [reflexivity|].
    rewrite Hstamp. erewrite openFile_existing; [|simpl; apply lookup_insert_eq].
    rewrite lookup_empty. unfold diskFull. simpl. now rewrite Hquota.
  - unfold putFile. simpl. rewrite lookup_insert_eq. simpl.
    rewrite lookup_insert_eq. reflexivity.
  - unfold putFile. simpl. rewrite lookup_insert_eq. simpl. now rewrite Hquota.
Qed.

Lemma persistDCPs_empty_dir dcps firstDcp lastDcp dir w :
  head dcps = Some firstDcp -> last dcps = Some lastDcp ->
  toStr (prop lastDcp "codestacao") = dir ->
  tree w !! dir = Some ∅ ->
  persistDCPs jsDate momentFormat config dcps w =
  storeBatch momentFormat config dir firstDcp lastDcp dcps w.
Proof.
  intros Hf Hl Hdir Hd. unfold persistDCPs. rewrite Hf, Hl, Hdir.
  unfold bind at 1, existsSync. rewrite Hd.
  rewrite bool_decide_eq_true_2 by eauto. simpl negb. cbv iota.
  unfold bind at 1, listFileFromDirectory. rewrite Hd. rewrite map_to_list_empty. reflexivity.
Qed.

Lemma persistDCPs_no_watermark dcps firstDcp lastDcp dir w d k v :
  head dcps = Some firstDcp -> last dcps = Some lastDcp ->
  toStr (prop lastDcp "codestacao") = dir ->
  tree w !! dir = Some d -> d !! k = Some v -> d !! "lastDate.dat" = None ->
  persistDCPs jsDate momentFormat config dcps w = (Fatal (Uncaught ENOENT), w).
Proof.
  intros Hf Hl Hdir Hd Hk Hnone. unfold persistDCPs. rewrite Hf, Hl, Hdir.
  unfold bind at 1, existsSync. rewrite Hd.
  rewrite bool_decide_eq_true_2 by eauto. simpl negb. cbv iota.
  unfold bind at 1, listFileFromDirectory. rewrite Hd. rewrite (listing_nonempty d k v Hk).
  unfold bind at 1, getLastDate, readFile. simpl. rewrite Hd. simpl. now rewrite Hnone.
Qed.

Lemma persistDCPs_incremental dcps firstDcp lastDcp dir w d lastDate :
  head dcps = Some firstDcp -> last dcps = Some lastDcp ->
  toStr (prop lastDcp "codestacao") = dir ->
  tree w !! dir = Some d -> d !! "lastDate.dat" = Some lastDate ->
  persistDCPs jsDate momentFormat config dcps w =
  match head (dcpsToSave jsDate lastDate dcps), last (dcpsToSave jsDate lastDate dcps) with
  | Some firstToSave, Some lastToSave =>
      (saveLastDate (lastDateFile dir) (prop lastToSave "dataHora") ;;;
       storeBatch momentFormat config dir firstToSave lastToSave
         (dcpsToSave jsDate lastDate dcps))%cemaden w
  | _, _ => (Done tt, w)
  end.
Proof.
  intros Hf Hl Hdir Hd Hwm. unfold persistDCPs. rewrite Hf, Hl, Hdir.
  unfold bind at 1, existsSync. rewrite Hd.
  rewrite bool_decide_eq_true_2 by eauto. simpl negb. cbv iota.
  unfold bind at 1, listFileFromDirectory. rewrite Hd. rewrite (listing_nonempty d _ _ Hwm).
  unfold bind at 1, getLastDate, readFile. simpl. rewrite Hd. simpl. rewrite Hwm.
  destruct (head (dcpsToSave jsDate lastDate dcps)); [|reflexivity].
  destruct (last (dcpsToSave jsDate lastDate dcps)); reflexivity.
Qed.

End Exact.

(** ** First ingestion of a station *)

(** C8, as stated, fails.  The directory of [S1] exists and is empty, so
    the station has no watermark.  The cycle saves the three readings in the
    file named after the last one, and resolves, but it writes no watermark
    file: [lastDate.dat] is only written when the directory is created. *)
Lemma first_ingestion_in_empty_directory :
  let run := getData Utc.jsDate Utc.momentFormat (Demo.config ["S1"])
               (Demo.always Demo.threeReadings) Demo.emptyDirWorld in
  readFile (lastDateFile "S1") Demo.emptyDirWorld = None
  /\ fst run = Done [[Demo.reading "S1" Demo.t1 "0.2"; Demo.reading "S1" Demo.t2 "0.4";
                      Demo.reading "S1" Demo.t3 "0"]]
  /\ readFile (mkPath "S1" "S1_20190520_132000.dat") (snd run)
     = Some ("TIMESTAMP;chuva" +:+ CRLF +:+ "05/20/2019 13:00:00;0.2" +:+ CRLF
             +:+ "05/20/2019 13:10:00;0.4" +:+ CRLF +:+ "05/20/2019 13:20:00;0" +:+ CRLF)
  /\ readFile (lastDateFile "S1") (snd run) = None.
Proof. vm_compute. repeat split; reflexivity. Qed.

Section FirstIngestion.

Variable jsDate : Value -> Moment.t.
Variable momentFormat : Value -> string -> string.
Variable config : Config.
Variable net : nat -> Response.

(** C8 (amended). First ingestion of a station whose directory does not
    exist yet, with no write refused and the [dataHora] of the last reading a
    string.  All the readings matched for the station are saved, unfiltered:
    the station directory then holds exactly the watermark file, with the
    [dataHora] of the last reading, and one data file named after the station
    and the timestamp of the last reading, made of the header and one line per
    reading in the order of arrival. *)
Theorem first_ingestion_saves_everything
    (station : string) (w : World) (dcps : list DCP) (firstDcp lastDcp : DCP) (stamp : string)
    (Hreadings : stationReadings station (net (requests w)) = dcps)
    (Hfirst : head dcps = Some firstDcp)
    (Hlast : last dcps = Some lastDcp)
    (Hstamp : prop lastDcp "dataHora" = VStr stamp)
    (Hfresh : tree w !! station = None)
    (Hquota : quota w = None) :
  let run := processStation jsDate momentFormat config net station w in
  let target := mkPath station (buildFileName momentFormat lastDcp +:+ ".dat") in
  fst run = Done dcps
  /\ pfile target = station +:+ "_" +:+ momentFormat (VStr stamp) "YYYYMMDD_HHmmss" +:+ ".dat"
  /\ readFile target (snd run)
     = Some (buildHeader (buildKeys firstDcp (exclude config))
             +:+ String.concat ""
                   (map (fun dcp => buildLine momentFormat dcp (buildKeys dcp (exclude config))) dcps))
  /\ readFile (lastDateFile station) (snd run) = Some stamp
  /\ (forall q, pdir q = station -> q <> target -> q <> lastDateFile station ->
                readFile q (snd run) = None).
Proof.
  intros run target.
  assert (Hne : dcps <> []) by (intros ->; discriminate).
  assert (Hcode : toStr (prop lastDcp "codestacao") = station)
    by (apply (last_code station (net (requests w))); now rewrite Hreadings).
  unfold run. rewrite (processStation_persist jsDate momentFormat config net station w dcps Hreadings Hne).
  set (w1 := countRequest w).
  destruct (persistDCPs_fresh_unlimited jsDate momentFormat config dcps firstDcp lastDcp station
              stamp w1 Hfirst Hlast Hcode Hstamp Hfresh Hquota) as (w3 & Hrun & Hd3 & Hq3).
  destruct (storeBatch_unlimited momentFormat config station firstDcp lastDcp dcps w3 _ Hq3 Hd3)
    as (A & B & C).
  pose proof (storeBatch_within momentFormat config (fun q => q <> target) station firstDcp
                lastDcp dcps) as Hw.
  specialize (Hw ltac:(intros H; now apply H) w3). destruct Hw as (_ & _ & _ & _ & Hkeep & _).
  destruct (storeBatch _ _ _ _ _ _ w3) as [r w4] eqn:Hstore. simpl in A, B, C, Hkeep. subst r.
  rewrite (bind_Done _ _ w1 w4 tt) by now rewrite Hrun.
  unfold target in *. simpl. split; [reflexivity|]. split; [|split; [|split]].
  - unfold buildFileName. rewrite Hstamp, Hcode. now rewrite !append_assoc.
  - rewrite B. rewrite lookup_singleton_ne; [reflexivity|].
    intros H. symmetry in H. now apply dataFile_not_lastDate in H.
  - rewrite Hkeep by (intros H; symmetry in H; now apply storeBatch_target_not_lastDate in H).
    unfold readFile. simpl. rewrite Hd3. simpl. apply lookup_singleton_eq.
  - intros q Hdir Hnt Hnl. rewrite (Hkeep q Hnt). unfold readFile. rewrite Hdir, Hd3. simpl.
    apply lookup_singleton_ne. intros H. apply Hnl. destruct q; simpl in *. unfold lastDateFile.
    congruence.
Qed.

End FirstIngestion.

Lemma first_ingestion_saves_everything_witness :
  let run := processStation Utc.jsDate Utc.momentFormat (Demo.config ["S1"])
               (Demo.always Demo.threeReadings) "S1" Demo.readyWorld in
  readFile (mkPath "S1" "S1_20190520_132000.dat") (snd run)
  = Some ("TIMESTAMP;chuva" +:+ CRLF +:+ "05/20/2019 13:00:00;0.2" +:+ CRLF
          +:+ "05/20/2019 13:10:00;0.4" +:+ CRLF +:+ "05/20/2019 13:20:00;0" +:+ CRLF)
  /\ readFile (lastDateFile "S1") (snd run) = Some Demo.t3.
Proof.
  destruct (first_ingestion_saves_everything Utc.jsDate Utc.momentFormat (Demo.config ["S1"])
              (Demo.always Demo.threeReadings) "S1" Demo.readyWorld
              [Demo.reading "S1" Demo.t1 "0.2"; Demo.reading "S1" Demo.t2 "0.4";
               Demo.reading "S1" Demo.t3 "0"]
              (Demo.reading "S1" Demo.t1 "0.2") (Demo.reading "S1" Demo.t3 "0") Demo.t3
              eq_refl eq_refl eq_refl eq_refl eq_refl eq_refl) as (_ & _ & A & B & _).
  split; [exact A | exact B].
Defined.

(** ** Header and rows of a data file *)

Lemma semicolons_concat (cells : list string) :
  Forall (fun c => semicolons c = 0) cells ->
  semicolons (String.concat ";" cells) = length cells - 1.
Proof.
  unfold semicolons. induction 1 as [|c l Hc Hl IH]; [reflexivity|].
  destruct l as [|c' l]; [simpl; rewrite Hc; reflexivity|].
  change (String.concat ";" (c :: c' :: l)) with (c +:+ ";" +:+ String.concat ";" (c' :: l)).
  rewrite !countChar_append, Hc, IH. simpl. lia.
Qed.

Lemma semicolons_row (first : string) (cells : list string) :
  semicolons first = 0 -> Forall (fun c => semicolons c = 0) cells ->
  semicolons (row first cells) = Nat.max 1 (length cells).
Proof.
  intros Hf Hc. unfold row. destruct cells as [|c l].
  - unfold semicolons in *. rewrite !countChar_append, Hf. reflexivity.
  - pose proof (semicolons_concat (c :: l) Hc) as H. unfold semicolons in *.
    rewrite !countChar_append, Hf, H. simpl. lia.
Qed.

(** C7, as stated, fails: the header comes from the first reading of the
    batch and every line from the keys of its own reading.  The second
    reading here carries a river level: the file has a header of two fields
    and a last line of three. *)
Lemma line_wider_than_header :
  let net := Demo.always (Body (Some [Demo.reading "S1" Demo.t1 "0.2";
                                      Demo.levelReading "S1" Demo.t2 "0.4" "1.5"])) in
  let run := getData Utc.jsDate Utc.momentFormat (Demo.config ["S1"]) net Demo.emptyWorld in
  let header := "TIMESTAMP;chuva" +:+ CRLF in
  let line1 := "05/20/2019 13:00:00;0.2" +:+ CRLF in
  let line2 := "05/20/2019 13:10:00;1.5;0.4" +:+ CRLF in
  readFile (mkPath "S1" "S1_20190520_131000.dat") (snd run) = Some (header +:+ line1 +:+ line2)
  /\ semicolons header = 1
  /\ semicolons line2 = 2.
Proof. vm_compute. repeat split; reflexivity. Qed.

(** C7 (amended). In an existing station directory [openFile] writes the
    header exactly when the file is new or empty at opening and the write is
    accepted; when the write is refused the file is left empty and [openFile]
    throws, and a file that holds content is opened without writing.  A line
    built from a reading with the same kept keys as the reading the header
    was built from has one value per header field, the value of that field,
    in the order of the header.  Nothing is escaped: it is when neither the
    formatted timestamp, nor a field name, nor a value contains a [;] that the
    line has as many [;], hence as many delimited values, as the header has
    field names. *)
Theorem header_once_and_rows_match
    (momentFormat : Value -> string -> string) (config : Config)
    (fileName : Path) (headerDcp dcp : DCP) (w : World) (d : gmap string string)
    (Hdir : tree w !! pdir fileName = Some d)
    (Hkeys : buildKeys dcp (exclude config) = buildKeys headerDcp (exclude config)) :
  let header := buildHeader (buildKeys headerDcp (exclude config)) in
  let names := rev (buildKeys headerDcp (exclude config)) in
  let stamp := momentFormat (prop dcp "dataHora") "MM/DD/YYYY HH:mm:ss" in
  let csvLine := buildLine momentFormat dcp (buildKeys dcp (exclude config)) in
  openFile config fileName (VStr header) w
  = match d !! pfile fileName with
    | Some (String c s) => (Done (Some fileName), w)
    | _ => if diskFull w
           then (Thrown ENOSPC, putFile fileName "" w)
           else (Done (Some fileName),
                 logEvent (EvHeader fileName header) (spend (putFile fileName header w)))
    end
  /\ (forall w', readFile fileName w' = Some header ->
                 openFile config fileName (VStr header) w' = (Done (Some fileName), w'))
  /\ header = row "TIMESTAMP" names
  /\ csvLine = row stamp (map (cell dcp) names)
  /\ length (map (cell dcp) names) = length names
  /\ (semicolons stamp = 0 ->
      Forall (fun c => semicolons c = 0) names ->
      Forall (fun c => semicolons c = 0) (map (cell dcp) names) ->
      semicolons csvLine = semicolons header
      /\ semicolons header = Nat.max 1 (length names)).
Proof.
  intros header names stamp csvLine.
  assert (Hh : header = row "TIMESTAMP" names) by apply buildHeader_row.
  assert (Hl : csvLine = row stamp (map (cell dcp) names))
    by (unfold csvLine, names; rewrite <- Hkeys; apply buildLine_row).
  split; [|split; [|split; [|split; [|split]]]]; auto.
  - apply (openFile_existing config fileName header w d Hdir).
  - intros w' Hw'. pose proof (readFile_dir _ _ _ Hw') as [d' Hd'].
    rewrite (openFile_existing config fileName header w' d' Hd').
    unfold readFile in Hw'. rewrite Hd' in Hw'. simpl in Hw'. rewrite Hw', Hh. reflexivity.
  - apply length_map.
  - intros Hs Hn Hc. rewrite Hl, Hh, !semicolons_row; auto. now rewrite length_map.
Qed.

Lemma header_once_and_rows_match_witness :
  openFile (Demo.config ["S1"]) (mkPath "S1" "S1_20190520_131000.dat")
    (VStr ("TIMESTAMP;chuva" +:+ CRLF)) (Demo.harvestedWorld None)
  = (Done (Some (mkPath "S1" "S1_20190520_131000.dat")),
     logEvent (EvHeader (mkPath "S1" "S1_20190520_131000.dat") ("TIMESTAMP;chuva" +:+ CRLF))
       (spend (putFile (mkPath "S1" "S1_20190520_131000.dat") ("TIMESTAMP;chuva" +:+ CRLF)
                 (Demo.harvestedWorld None))))
  /\ buildLine Utc.momentFormat (Demo.reading "S1" Demo.t2 "0.4")
       (buildKeys (Demo.reading "S1" Demo.t2 "0.4") ["codestacao"; "dataHora"])
     = row "05/20/2019 13:10:00" ["0.4"].
Proof.
  pose proof (header_once_and_rows_match Utc.momentFormat (Demo.config ["S1"])
                (mkPath "S1" "S1_20190520_131000.dat")
                (Demo.reading "S1" Demo.t1 "0.2") (Demo.reading "S1" Demo.t2 "0.4")
                (Demo.harvestedWorld None)
                {[ "lastDate.dat" := Demo.t1;
                   "S1_20190520_130000.dat" :=
                     "TIMESTAMP;chuva" +:+ CRLF +:+ "05/20/2019 13:00:00;0.2" +:+ CRLF ]}
                eq_refl eq_refl) as (A & _ & _ & B & _).
  split; [exact A | exact B].
Defined.

(** ** The watermark is written before the lines *)


Section WatermarkFirst.

Variable jsDate : Value -> Moment.t.
Variable momentFormat : Value -> string -> string.
Variable config : Config.
Variable net : nat -> Response.

Lemma snd_bind_ret {A B} (m : M A) (b : B) (w : World) :
  snd ((m ;;; ret b)%cemaden w) = snd (m w).
Proof. unfold bind. destruct (m w) as [[a|e|f] w']; reflexivity. Qed.

Lemma fst_bind_ret_Thrown {A B} (m : M A) (b : B) (w : World) (e : Exn) :
  fst (m w) = Thrown e -> fst ((m ;;; ret b)%cemaden w) = Thrown e.
Proof. unfold bind. destruct (m w) as [[a|e'|f] w']; simpl; congruence. Qed.

Lemma nonempty_ends {A} (l : list A) : l <> [] -> exists x y, head l = Some x /\ last l = Some y.
Proof.
  destruct l as [|x l]; [congruence|]. intros _. exists x.
  destruct (last (x :: l)) as [y|] eqn:Hl; [eauto|].
  apply last_None in Hl. discriminate.
Qed.

Lemma linesWritten_app (a b : list Event) :
  linesWritten (a ++ b) = linesWritten a + linesWritten b.
Proof. unfold linesWritten. now rewrite List.filter_app, length_app. Qed.


End WatermarkFirst.


(** ** The watermark never goes back *)

Section Monotone.

Variable jsDate : Value -> Moment.t.
Variable momentFormat : Value -> string -> string.
Variable config : Config.
Variable net : nat -> Response.

Lemma processStation_no_readings (station : string) (w : World) :
  stationReadings station (net (requests w)) = [] ->
  snd (processStation jsDate momentFormat config net station w) = countRequest w.
Proof.
  intros Hnil. unfold processStation, bind at 1.
  pose proof (getDCPs_world net station w) as Hw. pose proof (getDCPs_outcome net station w) as Ho.
  destruct (getDCPs net station w) as [[dcps|e|f] w1]; simpl in *; subst w1; try reflexivity.
  destruct Ho as [-> Hne]. contradiction.
Qed.

Lemma saveLastDate_cases (p : Path) (v : Value) (w : World) :
  snd (saveLastDate p v w) = w
  \/ (exists s, v = VStr s
                /\ saveLastDate p v w
                   = (Done true, logEvent (EvLastDate p s) (spend (putFile p s w)))
                /\ is_Some (readFile p w))
  \/ (diskFull w = true /\ saveLastDate p v w = (Done false, putFile p "" w)).
Proof.
  unfold saveLastDate. destruct (readFile p w) as [old|]; [|now left].
  destruct v; try now left. destruct (diskFull w); [now right; right|].
  right. left. eauto.
Qed.

(** After the watermark write, storing the batch leaves the watermark file
    alone. *)
Lemma save_then_store_watermark dir v firstToSave lastToSave dcps w :
  readFile (lastDateFile dir)
    (snd ((saveLastDate (lastDateFile dir) v ;;;
           storeBatch momentFormat config dir firstToSave lastToSave dcps)%cemaden w))
  = readFile (lastDateFile dir) (snd (saveLastDate (lastDateFile dir) v w)).
Proof.
  unfold bind. destruct (saveLastDate (lastDateFile dir) v w) as [[b|e|f] w1]; try reflexivity.
  simpl.
  pose proof (storeBatch_within momentFormat config (fun q => q = lastDateFile dir) dir
                firstToSave lastToSave dcps
                (storeBatch_target_not_lastDate momentFormat dir lastToSave) w1) as Hin.
  destruct Hin as (_ & _ & _ & _ & Hkeep & _). now apply Hkeep.
Qed.

Lemma dcpsToSave_In lastDate dcps dcp :
  In dcp (dcpsToSave jsDate lastDate dcps) ->
  In dcp dcps /\ compareDates jsDate (prop dcp "dataHora") (VStr lastDate) = true.
Proof. unfold dcpsToSave. intros H. now apply filter_In in H. Qed.

(** The station whose watermark is followed; every reading the service
    sends for it carries a date. *)
Variable code : string.
Hypothesis Hdates :
  forall n, Forall (fun dcp => is_Some (instant jsDate dcp)) (stationReadings code (net n)).

Lemma processStation_monotone (station : string) (w : World) (old : string) (a : Z) :
  quota w = None ->
  readFile (lastDateFile code) w = Some old -> jsDate (VStr old) = Some a ->
  notBefore jsDate code a (snd (processStation jsDate momentFormat config net station w)).
Proof.
  intros Hquota Hold Ha.
  assert (Hsame : forall w', readFile (lastDateFile code) w' = Some old -> notBefore jsDate code a w').
  { intros w' Hw'. exists old, a. repeat split; auto. lia. }
  destruct (decide (station = code)) as [->|Hne].
  2:{ apply Hsame.
      destruct (processStation_within jsDate momentFormat config net
                  (fun q => pdir q <> station) station w (fun q H => H))
        as (_ & _ & _ & _ & Hkeep & _).
      rewrite Hkeep by (simpl; congruence). exact Hold. }
  set (readings := stationReadings code (net (requests w))).
  destruct (decide (readings = [])) as [Hnil|Hsome].
  { rewrite (processStation_no_readings code w Hnil). now apply Hsame. }
  destruct (nonempty_ends readings Hsome) as (firstDcp & lastDcp & Hf & Hl).
  rewrite (processStation_persist jsDate momentFormat config net code w readings eq_refl Hsome).
  rewrite snd_bind_ret.
  assert (Hd : exists d, tree w !! code = Some d /\ d !! "lastDate.dat" = Some old).
  { unfold readFile in Hold. simpl in Hold. destruct (tree w !! code) as [d|]; [eauto|discriminate]. }
  destruct Hd as (d & Hd & Hwm).
  rewrite (persistDCPs_incremental jsDate momentFormat config readings firstDcp lastDcp code
             (countRequest w) d old Hf Hl (last_code _ _ _ Hl) Hd Hwm).
  destruct (head (dcpsToSave jsDate old readings)) as [firstToSave|]; [|now apply Hsame].
  destruct (last (dcpsToSave jsDate old readings)) as [lastToSave|] eqn:Hlast; [|now apply Hsame].
  unfold notBefore. rewrite save_then_store_watermark.
  destruct (saveLastDate_cases (lastDateFile code) (prop lastToSave "dataHora") (countRequest w))
    as [Hw|[(s & Hv & Hsave & Hdir)|[Hfull _]]].
  { rewrite Hw. now apply Hsame. }
  2:{ unfold diskFull in Hfull. simpl in Hfull. rewrite Hquota in Hfull. discriminate. }
  rewrite Hsave. simpl.
  apply last_In, dcpsToSave_In in Hlast as [Hin Hcmp].
  pose proof (Hdates (requests w)) as Hall. rewrite Forall_forall in Hall.
  destruct (Hall lastToSave) as [t Ht]; [apply list_elem_of_In; exact Hin|].
  unfold instant in Ht.
  rewrite (compareDates_valid jsDate _ _ t a Ht Ha) in Hcmp. apply Z.ltb_lt in Hcmp.
  exists s, t. rewrite <- Hv. repeat split; [|exact Ht|lia].
  apply (readFile_putFile_eq (lastDateFile code) s (countRequest w)).
  now apply readFile_dir in Hold.
Qed.

Lemma stationTurn_world (outputDCP : list (list DCP)) (station : string) (w : World) :
  exists evs,
    let w1 := snd (processStation jsDate momentFormat config net station w) in
    snd (stationTurn jsDate momentFormat config net outputDCP station w)
    = mkWorld (root w1) (parent w1) (tree w1) (quota w1) (requests w1) (trace w1 ++ evs)
    /\ linesWritten evs = 0.
Proof.
  pose proof (stationTurn_cases jsDate momentFormat config net outputDCP station w) as H.
  destruct (processStation jsDate momentFormat config net station w) as [[dcps|e|f] w1];
    rewrite H; simpl.
  - exists []. rewrite app_nil_r. now destruct w1.
  - destruct e; try (exists []; rewrite app_nil_r; now destruct w1).
    eexists [_]. split; reflexivity.
  - exists []. rewrite app_nil_r. now destruct w1.
Qed.

Lemma stationTurn_readFile outputDCP station w q :
  readFile q (snd (stationTurn jsDate momentFormat config net outputDCP station w))
  = readFile q (snd (processStation jsDate momentFormat config net station w)).
Proof. destruct (stationTurn_world outputDCP station w) as (evs & -> & _). reflexivity. Qed.

Lemma stationLoop_monotone (todo : list string) outputDCP (w : World) (a : Z) :
  quota w = None ->
  notBefore jsDate code a w ->
  notBefore jsDate code a (snd (stationLoop jsDate momentFormat config net todo outputDCP w)).
Proof.
  revert outputDCP w a. induction todo as [|station rest IH]; intros outputDCP w a Hq Hw;
    [exact Hw|].
  simpl. unfold bind.
  assert (H1 : notBefore jsDate code a
                 (snd (stationTurn jsDate momentFormat config net outputDCP station w))).
  { destruct Hw as (old & b & Hold & Hb & Hab).
    destruct (processStation_monotone station w old b Hq Hold Hb) as (new & c & Hnew & Hc & Hbc).
    exists new, c. rewrite stationTurn_readFile. repeat split; auto. lia. }
  destruct (stationTurn_within jsDate momentFormat config net (fun _ => False) outputDCP
              station w) as (_ & Hq1 & _); [tauto|].
  specialize (Hq1 Hq).
  destruct (stationTurn _ _ _ _ outputDCP station w) as [[out|e|f] w1]; simpl in *; auto.
Qed.

Lemma getData_monotone (w : World) (a : Z) :
  quota w = None ->
  notBefore jsDate code a w ->
  notBefore jsDate code a (snd (getData jsDate momentFormat config net w)).
Proof.
  intros Hq (old & b & Hold & Hb & Hab).
  destruct (getData_cases jsDate momentFormat config net w)
    as [(w0 & evs & -> & Ht & Hq0 & _)|(_ & _ & ->)].
  - apply stationLoop_monotone; [congruence|].
    exists old, b. unfold readFile in *. rewrite Ht. auto.
  - exists old, b. auto.
Qed.

End Monotone.



(** ** Running the cycle again on the same payload *)

(** C6, as stated, fails.  The service sends the later reading first.  The
    first cycle saves both readings and leaves the watermark at the [dataHora]
    of the last one in the batch, [t1]; the second cycle, on the same payload,
    finds the reading of [t2] after the watermark, appends one more line to a
    second file and moves the watermark to [t2]. *)
Lemma same_payload_saved_twice :
  let cfg := Demo.config ["S1"] in
  let net := Demo.always Demo.latestFirst in
  let first := snd (getData Utc.jsDate Utc.momentFormat cfg net Demo.emptyWorld) in
  let second := snd (getData Utc.jsDate Utc.momentFormat cfg net first) in
  readFile (lastDateFile "S1") first = Some Demo.t1
  /\ linesWritten (trace first) = 2
  /\ readFile (lastDateFile "S1") second = Some Demo.t2
  /\ linesWritten (trace second) = 3
  /\ readFile (mkPath "S1" "S1_20190520_131000.dat") first = None
  /\ readFile (mkPath "S1" "S1_20190520_131000.dat") second
     = Some ("TIMESTAMP;chuva" +:+ CRLF +:+ "05/20/2019 13:10:00;0.4" +:+ CRLF).
Proof. vm_compute. repeat split; reflexivity. Qed.

Lemma filter_all_false {A} (f : A -> bool) (l : list A) :
  (forall x, In x l -> f x = false) -> List.filter f l = [].
Proof.
  induction l as [|x l IH]; intros H; simpl; [reflexivity|].
  rewrite (H x) by now left. apply IH. intros y Hy. apply H. now right.
Qed.

Lemma last_filter_keeps {A} (f : A -> bool) (l : list A) (x : A) :
  last l = Some x -> f x = true -> last (List.filter f l) = Some x.
Proof.
  induction l as [|y l IH]; [discriminate|]. intros Hl Hx.
  destruct l as [|z l].
  - injection Hl as ->. simpl. now rewrite Hx.
  - change (last (y :: z :: l)) with (last (z :: l)) in Hl. specialize (IH Hl Hx).
    change (List.filter f (y :: z :: l))
      with (if f y then y :: List.filter f (z :: l) else List.filter f (z :: l)).
    destruct (f y); [|exact IH].
    destruct (List.filter f (z :: l)); [discriminate | exact IH].
Qed.

Lemma head_None_nil {A} (l : list A) : head l = None -> l = [].
Proof. destruct l; [reflexivity | discriminate]. Qed.

Section Idempotent.

Variable jsDate : Value -> Moment.t.
Variable momentFormat : Value -> string -> string.
Variable config : Config.

(** The service gives the same answer to every request. *)
Variable payload : Response.

Local Notation "'net'" := (fun _ : nat => payload).
Local Notation "'readingsOf' station" := (stationReadings station payload) (at level 10).

Lemma settled_unchanged (station : string) (w : World) :
  settled jsDate (readingsOf station) (tree w !! station) ->
  snd (processStation jsDate momentFormat config net station w) = countRequest w.
Proof.
  intros Hs. destruct (decide (readingsOf station = [])) as [Hnil|Hsome].
  { now apply processStation_no_readings. }
  destruct Hs as [Hnil|(d & Hd & Hne & Hwm)]; [contradiction|].
  rewrite (processStation_persist jsDate momentFormat config net station w _ eq_refl Hsome).
  rewrite snd_bind_ret.
  destruct (nonempty_ends _ Hsome) as (firstDcp & lastDcp & Hf & Hl).
  destruct (map_choose d Hne) as (k & v & Hk).
  destruct (d !! "lastDate.dat") as [lastDate|] eqn:Hfile.
  - rewrite (persistDCPs_incremental jsDate momentFormat config _ firstDcp lastDcp station
               (countRequest w) d lastDate Hf Hl (last_code _ _ _ Hl) Hd Hfile).
    now rewrite (Hwm lastDate eq_refl).
  - now rewrite (persistDCPs_no_watermark jsDate momentFormat config _ firstDcp lastDcp station
                   (countRequest w) d k v Hf Hl (last_code _ _ _ Hl) Hd Hk Hfile).
Qed.

Lemma settled_of_watermark (readings : list DCP) (station : string) (w : World) (s : string) :
  readFile (lastDateFile station) w = Some s ->
  dcpsToSave jsDate s readings = [] ->
  settled jsDate readings (tree w !! station).
Proof.
  intros Hr Hnone. right. unfold readFile in Hr. simpl in Hr.
  destruct (tree w !! station) as [d|]; [|discriminate]. simpl in Hr.
  exists d. split; [reflexivity|]. split.
  - intros ->. now rewrite lookup_empty in Hr.
  - intros lastDate Hl. rewrite Hr in Hl. now injection Hl as <-.
Qed.

Lemma settled_of_no_watermark (readings : list DCP) (station : string) (w : World) (q : Path) :
  pdir q = station -> is_Some (readFile q w) ->
  readFile (lastDateFile station) w = None ->
  settled jsDate readings (tree w !! station).
Proof.
  intros Hq [c Hc] Hnone. right. unfold readFile in *. rewrite Hq in Hc. simpl in Hnone.
  destruct (tree w !! station) as [d|]; [|discriminate]. simpl in *.
  exists d. split; [reflexivity|]. split.
  - intros ->. now rewrite lookup_empty in Hc.
  - intros lastDate Hl. congruence.
Qed.

(** Once a station has been handled, with room on the disk, its directory
    is settled for the payload. *)
Lemma processStation_settles (station : string) (w : World) :
  quota w = None ->
  Forall (stamped jsDate) (readingsOf station) ->
  latestLast jsDate (readingsOf station) ->
  settled jsDate (readingsOf station)
    (tree (snd (processStation jsDate momentFormat config net station w)) !! station).
Proof.
  intros Hquota Hstamped Hlatest.
  destruct (decide (readingsOf station = [])) as [Hnil|Hsome]; [now left|].
  destruct (nonempty_ends _ Hsome) as (firstDcp & lastDcp & Hf & Hl).
  pose proof (last_code _ _ _ Hl) as Hcode.
  rewrite Forall_forall in Hstamped.
  destruct (Hstamped lastDcp) as (sl & tl & Hsl & Htl);
    [apply list_elem_of_In, last_In, Hl|].
  assert (Hinst : instant jsDate lastDcp = Some tl) by (unfold instant; now rewrite Hsl).
  specialize (Hlatest lastDcp tl Hl Hinst). rewrite Forall_forall in Hlatest.
  assert (K : dcpsToSave jsDate sl (readingsOf station) = []).
  { apply filter_all_false. intros dcp Hin. apply list_elem_of_In in Hin.
    destruct (Hstamped dcp Hin) as (s & t & Hs & Ht).
    rewrite Hs, (compareDates_valid jsDate _ _ t tl Ht Htl). apply Z.ltb_ge.
    apply (Hlatest dcp Hin). unfold instant. now rewrite Hs. }
  rewrite (processStation_persist jsDate momentFormat config net station w _ eq_refl Hsome).
  rewrite snd_bind_ret. set (w1 := countRequest w).
  assert (Hkeep : forall first last batch w0,
             readFile (lastDateFile station)
               (snd (storeBatch momentFormat config station first last batch w0))
             = readFile (lastDateFile station) w0).
  { intros first lst batch w0.
    destruct (storeBatch_within momentFormat config (fun q => q = lastDateFile station) station
                first lst batch (storeBatch_target_not_lastDate momentFormat station lst) w0)
      as (_ & _ & _ & _ & Hk & _). now apply Hk. }
  destruct (tree w !! station) as [d|] eqn:Hd.
  - destruct (decide (d = ∅)) as [->|Hne].
    + rewrite (persistDCPs_empty_dir jsDate momentFormat config _ firstDcp lastDcp station w1
                 Hf Hl Hcode Hd).
      destruct (storeBatch_unlimited momentFormat config station firstDcp lastDcp
                  (readingsOf station) w1 ∅ Hquota Hd) as (_ & Htarget & _).
      eapply settled_of_no_watermark; [|rewrite Htarget; eauto|]; [reflexivity|].
      rewrite Hkeep. unfold readFile. simpl. now rewrite Hd.
    + destruct (map_choose d Hne) as (k & v & Hk).
      destruct (d !! "lastDate.dat") as [lastDate|] eqn:Hfile.
      2:{ rewrite (persistDCPs_no_watermark jsDate momentFormat config _ firstDcp lastDcp station
                     w1 d k v Hf Hl Hcode Hd Hk Hfile).
          right. exists d. repeat split; auto. congruence. }
      rewrite (persistDCPs_incremental jsDate momentFormat config _ firstDcp lastDcp station
                 w1 d lastDate Hf Hl Hcode Hd Hfile).
      assert (Hstay : dcpsToSave jsDate lastDate (readingsOf station) = [] ->
                      settled jsDate (readingsOf station) (tree w1 !! station)).
      { intros Hnone. right. exists d. repeat split; auto. congruence. }
      destruct (head (dcpsToSave jsDate lastDate (readingsOf station))) as [firstToSave|] eqn:Hhead;
        [|apply Hstay; now apply head_None_nil].
      destruct (last (dcpsToSave jsDate lastDate (readingsOf station))) as [lastToSave|] eqn:Hlast;
        [|apply Hstay; now apply last_None].
      assert (Hpass : compareDates jsDate (prop lastDcp "dataHora") (VStr lastDate) = true).
      { destruct (jsDate (VStr lastDate)) as [a|] eqn:Ha; [|apply compareDates_invalid; now right].
        rewrite Hsl, (compareDates_valid jsDate _ _ tl a Htl Ha). apply Z.ltb_lt.
        apply last_In, dcpsToSave_In in Hlast as [Hin Hcmp]. apply list_elem_of_In in Hin.
        destruct (Hstamped lastToSave Hin) as (s & t & Hs & Ht).
        rewrite Hs, (compareDates_valid jsDate _ _ t a Ht Ha) in Hcmp. apply Z.ltb_lt in Hcmp.
        pose proof (Hlatest lastToSave Hin t) as Hle. unfold instant in Hle. rewrite Hs in Hle.
        specialize (Hle Ht). lia. }
      assert (lastToSave = lastDcp) as ->.
      { unfold dcpsToSave in Hlast.
        rewrite (last_filter_keeps _ _ lastDcp Hl Hpass) in Hlast. congruence. }
      apply (settled_of_watermark _ station _ sl); [|exact K].
      rewrite save_then_store_watermark, Hsl.
      assert (Hsave : saveLastDate (lastDateFile station) (VStr sl) w1
                      = (Done true, logEvent (EvLastDate (lastDateFile station) sl)
                                      (spend (putFile (lastDateFile station) sl w1)))).
      { unfold saveLastDate, readFile. simpl. rewrite Hd. simpl. rewrite Hfile.
        now rewrite (diskFull_unlimited w1 Hquota). }
      rewrite Hsave. apply (readFile_putFile_eq (lastDateFile station) sl w1). simpl. eauto.
  - destruct (persistDCPs_fresh_unlimited jsDate momentFormat config _ firstDcp lastDcp station
                sl w1 Hf Hl Hcode Hsl Hd Hquota) as (w3 & Hrun & Hd3 & Hq3).
    rewrite Hrun. apply (settled_of_watermark _ station _ sl); [|exact K].
    rewrite Hkeep. unfold readFile. simpl. rewrite Hd3. simpl. apply lookup_singleton_eq.
Qed.

Lemma stationTurn_settled_idle outputDCP (station : string) (w : World) :
  settled jsDate (readingsOf station) (tree w !! station) ->
  let w' := snd (stationTurn jsDate momentFormat config net outputDCP station w) in
  tree w' = tree w /\ linesWritten (trace w') = linesWritten (trace w).
Proof.
  intros Hs. destruct (stationTurn_world jsDate momentFormat config net outputDCP station w)
    as (evs & Hw & Hevs).
  simpl in *. rewrite Hw, (settled_unchanged station w Hs). simpl.
  split; [reflexivity|]. rewrite linesWritten_app, Hevs. lia.
Qed.

Lemma stationLoop_settled_idle (todo : list string) outputDCP (w : World) :
  (forall station, In station todo -> settled jsDate (readingsOf station) (tree w !! station)) ->
  let w' := snd (stationLoop jsDate momentFormat config net todo outputDCP w) in
  tree w' = tree w /\ linesWritten (trace w') = linesWritten (trace w).
Proof.
  revert outputDCP w. induction todo as [|station rest IH]; intros outputDCP w Hall; [now split|].
  simpl. unfold bind.
  destruct (stationTurn_settled_idle outputDCP station w (Hall station (or_introl eq_refl)))
    as [Ht Hl].
  destruct (stationTurn _ _ _ _ outputDCP station w) as [[out|e|f] w1]; simpl in *;
    try (now split).
  destruct (IH out w1) as [Ht' Hl'].
  - intros st Hin. rewrite Ht. apply Hall. now right.
  - split; congruence.
Qed.

Lemma stationTurn_keeps_settled outputDCP (station code : string) (w : World) :
  settled jsDate (readingsOf code) (tree w !! code) ->
  settled jsDate (readingsOf code)
    (tree (snd (stationTurn jsDate momentFormat config net outputDCP station w)) !! code).
Proof.
  intros Hs. destruct (decide (station = code)) as [->|Hne].
  - destruct (stationTurn_settled_idle outputDCP code w Hs) as [Ht _]. simpl in Ht.
    now rewrite Ht.
  - destruct (stationTurn_within jsDate momentFormat config net (fun _ => False) outputDCP
                station w) as (_ & _ & Hdir & _); [tauto|].
    rewrite Hdir by congruence. exact Hs.
Qed.

Lemma stationLoop_keeps_settled (todo : list string) outputDCP (code : string) (w : World) :
  settled jsDate (readingsOf code) (tree w !! code) ->
  settled jsDate (readingsOf code)
    (tree (snd (stationLoop jsDate momentFormat config net todo outputDCP w)) !! code).
Proof.
  revert outputDCP w. induction todo as [|station rest IH]; intros outputDCP w Hs; [exact Hs|].
  simpl. unfold bind.
  pose proof (stationTurn_keeps_settled outputDCP station code w Hs) as H1.
  destruct (stationTurn _ _ _ _ outputDCP station w) as [[out|e|f] w1]; simpl in *; auto.
Qed.

Lemma stationLoop_settles (todo : list string) outputDCP (w : World) dcps :
  quota w = None ->
  (forall station, In station todo ->
     Forall (stamped jsDate) (readingsOf station) /\ latestLast jsDate (readingsOf station)) ->
  fst (stationLoop jsDate momentFormat config net todo outputDCP w) = Done dcps ->
  forall station, In station todo ->
    settled jsDate (readingsOf station)
      (tree (snd (stationLoop jsDate momentFormat config net todo outputDCP w)) !! station).
Proof.
  revert outputDCP w. induction todo as [|station rest IH]; intros outputDCP w Hq Hall Hdone;
    [intros ? []|].
  simpl in *. unfold bind in *.
  destruct (stationTurn_world jsDate momentFormat config net outputDCP station w)
    as (evs & Hw & _).
  destruct (stationTurn_within jsDate momentFormat config net (fun _ => False) outputDCP
              station w) as (_ & Hq1 & _); [tauto|].
  destruct (Hall station (or_introl eq_refl)) as [Hst Hla].
  pose proof (processStation_settles station w Hq Hst Hla) as Hset.
  destruct (stationTurn _ _ _ _ outputDCP station w) as [[out|e|f] w1]; simpl in *;
    try discriminate.
  assert (Hset1 : settled jsDate (readingsOf station) (tree w1 !! station))
    by (rewrite Hw; exact Hset).
  intros st [<-|Hin].
  - now apply stationLoop_keeps_settled.
  - apply (IH out w1); auto.
Qed.

End Idempotent.

(** C6 (amended). Take a payload in which every reading of a configured
    station carries a date and no reading of a station is later than the last
    one of that station (as when the service sends them oldest first), and a run
    of [getData] on it that went to its end with room on the disk.  A second
    run on the same payload leaves every file as it is, watermark files
    included, and appends no line. *)
Theorem second_cycle_changes_nothing
    (jsDate : Value -> Moment.t) (momentFormat : Value -> string -> string)
    (config : Config) (payload : Response) (w : World) (dcps : list (list DCP))
    (Hstamped : forall station, In station (stations config) ->
                  Forall (stamped jsDate) (stationReadings station payload))
    (Hlatest : forall station, In station (stations config) ->
                 latestLast jsDate (stationReadings station payload))
    (Hquota : quota w = None)
    (Hfirst : fst (getData jsDate momentFormat config (fun _ => payload) w) = Done dcps) :
  let first := snd (getData jsDate momentFormat config (fun _ => payload) w) in
  let second := snd (getData jsDate momentFormat config (fun _ => payload) first) in
  tree second = tree first
  /\ (forall q, readFile q second = readFile q first)
  /\ linesWritten (trace second) = linesWritten (trace first).
Proof.
  intros first second.
  assert (Hsettled : forall station, In station (stations config) ->
            settled jsDate (stationReadings station payload) (tree first !! station)).
  { unfold first.
    destruct (getData_Done _ _ _ _ _ _ Hfirst) as (w0 & evs & Hrun & _ & Hq0 & _).
    rewrite Hrun in *.
    apply (stationLoop_settles jsDate momentFormat config payload _ _ _ dcps); auto.
    congruence. }
  assert (Hidle : tree second = tree first
                  /\ linesWritten (trace second) = linesWritten (trace first)).
  { unfold second.
    destruct (getData_cases jsDate momentFormat config (fun _ => payload) first)
      as [(w1 & evs & -> & Ht & _ & _ & Htr & Hl0)|(_ & _ & ->)].
    - destruct (stationLoop_settled_idle jsDate momentFormat config payload (stations config) []
                  w1) as [Ht' Hl'].
      + intros st Hin. rewrite Ht. now apply Hsettled.
      + simpl in *. split; [congruence|]. rewrite Hl', Htr, linesWritten_app, Hl0. lia.
    - cbn [snd tree trace logEvent]. split; [reflexivity|]. rewrite linesWritten_app. cbn. lia. }
  destruct Hidle as [Ht Hl]. split; [exact Ht|]. split; [|exact Hl].
  intros q. unfold readFile. now rewrite Ht.
Qed.

Lemma second_cycle_changes_nothing_witness :
  let first := snd (getData Utc.jsDate Utc.momentFormat Demo.twoStations
                      (Demo.always Demo.threeReadings) Demo.emptyWorld) in
  let second := snd (getData Utc.jsDate Utc.momentFormat Demo.twoStations
                       (Demo.always Demo.threeReadings) first) in
  linesWritten (trace second) = linesWritten (trace first).
Proof.
  eapply (second_cycle_changes_nothing Utc.jsDate Utc.momentFormat Demo.twoStations
            Demo.threeReadings Demo.emptyWorld).
  - intros station _. apply Forall_forall. intros dcp Hin. apply list_elem_of_In in Hin.
    apply filter_In in Hin as [Hin _].
    destruct Hin as [<-|[<-|[<-|[]]]]; eexists _, _; split; reflexivity.
  - intros station _ lastDcp tl Hl Hi. destruct (decide (station = "S1")) as [->|Hne].
    + vm_compute in Hl. injection Hl as <-. vm_compute in Hi. injection Hi as <-.
      repeat constructor; intros t Ht; vm_compute in Ht; injection Ht as <-; lia.
    + assert (Hnil : stationReadings station Demo.threeReadings = []).
      { apply filter_all_false. intros x [<-|[<-|[<-|[]]]];
          apply bool_decide_eq_false; simpl; congruence. }
      rewrite Hnil in Hl. discriminate.
  - reflexivity.
  - vm_compute. reflexivity.
Defined.

(** * Further properties of the helpers *)

(** ** Kept keys, header and separators *)

Lemma list_sum_rev (l : list nat) : list_sum (rev l) = list_sum l.
Proof.
  induction l as [|x l IH]; [reflexivity|].
  simpl. rewrite list_sum_app, IH. simpl. lia.
Qed.

Lemma semicolons_CRLF : semicolons CRLF = 0.
Proof. reflexivity. Qed.

Lemma semicolons_concat_sum (cells : list string) :
  semicolons (String.concat ";" cells) = list_sum (map semicolons cells) + (length cells - 1).
Proof.
  unfold semicolons. induction cells as [|c l IH]; [reflexivity|].
  destruct l as [|c' l]; [simpl; lia|].
  change (String.concat ";" (c :: c' :: l)) with (c +:+ ";" +:+ String.concat ";" (c' :: l)).
  rewrite !countChar_append, IH. simpl. lia.
Qed.

Lemma semicolons_row_sum (first : string) (cells : list string) :
  semicolons (row first cells)
  = semicolons first + Nat.max 1 (length cells) + list_sum (map semicolons cells).
Proof.
  unfold row. destruct cells as [|c l].
  - unfold semicolons. rewrite !countChar_append. simpl. lia.
  - pose proof (semicolons_concat_sum (c :: l)) as H. pose proof semicolons_CRLF as Hc.
    unfold semicolons in *. rewrite !countChar_append, H, Hc. simpl. lia.
Qed.

(** X1. The header names, after [TIMESTAMP], the keys [buildKeys] keeps, last
    key first; the kept keys are the keys of the reading that are not
    excluded, in the order of the reading. *)
Theorem header_cells_are_kept_keys (dcp : DCP) (excludeOptions : list string) :
  buildHeader (buildKeys dcp excludeOptions) = row "TIMESTAMP" (rev (buildKeys dcp excludeOptions))
  /\ (forall k, In k (buildKeys dcp excludeOptions) <-> In k (keysOf dcp) /\ ~ In k excludeOptions)
  /\ sublist (buildKeys dcp excludeOptions) (keysOf dcp).
Proof.
  split; [apply buildHeader_row|]. split; [|apply filter_sublist].
  intros k. unfold buildKeys. rewrite filter_In, negb_true_iff, bool_decide_eq_false.
  now rewrite list_elem_of_In.
Qed.

(** X2. Values are written as they are: a line has one [;] after the
    timestamp, one between two cells, and one more for every [;] inside the
    formatted timestamp or inside a cell; the header likewise with the key
    names. *)
Theorem separators_are_not_escaped
    (momentFormat : Value -> string -> string) (dcp : DCP) (arrayKeys : list string) :
  semicolons (buildLine momentFormat dcp arrayKeys)
  = semicolons (momentFormat (prop dcp "dataHora") "MM/DD/YYYY HH:mm:ss")
    + Nat.max 1 (length arrayKeys)
    + list_sum (map (fun k => semicolons (cell dcp k)) arrayKeys)
  /\ semicolons (buildHeader arrayKeys)
     = Nat.max 1 (length arrayKeys) + list_sum (map semicolons arrayKeys).
Proof.
  rewrite buildLine_row, buildHeader_row, !semicolons_row_sum.
  rewrite !length_map, !length_rev, map_map, !map_rev, !list_sum_rev.
  split; [reflexivity|]. simpl. lia.
Qed.

(** ** The filter against a watermark that is not a date *)

(** X4. When the contents of [lastDate.dat] are not a date, every reading
    passes the filter: the whole batch is saved again. *)
Theorem unreadable_watermark_keeps_all
    (jsDate : Value -> Moment.t) (lastDate : string) (dcps : list DCP)
    (Hwatermark : jsDate (VStr lastDate) = None) :
  dcpsToSave jsDate lastDate dcps = dcps.
Proof.
  unfold dcpsToSave. induction dcps as [|dcp l IH]; [reflexivity|].
  simpl. rewrite compareDates_invalid by now right. now rewrite IH.
Qed.

Lemma unreadable_watermark_keeps_all_witness :
  dcpsToSave Utc.jsDate ""
    [Demo.reading "S1" Demo.t1 "0.2"; Demo.reading "S1" Demo.t2 "0.4"]
  = [Demo.reading "S1" Demo.t1 "0.2"; Demo.reading "S1" Demo.t2 "0.4"].
Proof.
  apply (unreadable_watermark_keeps_all Utc.jsDate ""). reflexivity.
Defined.

(** ** What [getDCPs] resolves with *)

(** X7. On a body with a readings array, [getDCPs] issues one request and
    either rejects with [DisabledDCP] of the station, when no reading has
    exactly the station's code as a string, or resolves with the non-empty
    list of all such readings, in the order of the array; the files are not
    touched. *)
Theorem getDCPs_contract
    (net : nat -> Response) (station : string) (w : World) (arr : list DCP)
    (Hbody : net (requests w) = Body (Some arr)) :
  snd (getDCPs net station w) = countRequest w
  /\ ((fst (getDCPs net station w) = Thrown (DisabledDCP station)
       /\ forall dcp, In dcp arr -> prop dcp "codestacao" <> VStr station)
      \/ exists dcps,
           fst (getDCPs net station w) = Done dcps
           /\ dcps <> []
           /\ sublist dcps arr
           /\ forall dcp, In dcp dcps <-> In dcp arr /\ prop dcp "codestacao" = VStr station).
Proof.
  split; [apply getDCPs_world|].
  unfold getDCPs. rewrite Hbody.
  set (f := fun element : DCP => bool_decide (prop element "codestacao" = VStr station)).
  destruct (List.filter f arr) as [|dcp l] eqn:Hf; simpl.
  - left. split; [reflexivity|]. intros dcp Hin Heq.
    assert (H : In dcp (List.filter f arr))
      by (apply filter_In; split; [exact Hin | now apply bool_decide_eq_true]).
    now rewrite Hf in H.
  - right. exists (dcp :: l). split; [reflexivity|]. split; [discriminate|].
    rewrite <- Hf. split; [apply filter_sublist|].
    intros x. rewrite filter_In. unfold f. now rewrite bool_decide_eq_true.
Qed.

Lemma getDCPs_contract_witness :
  fst (getDCPs (Demo.always (Body (Some [Demo.reading "S1" Demo.t1 "0.2";
                                         Demo.reading "S2" Demo.t1 "1";
                                         Demo.reading "S1" Demo.t2 "0.4"])))
         "S1" Demo.emptyWorld)
  = Done [Demo.reading "S1" Demo.t1 "0.2"; Demo.reading "S1" Demo.t2 "0.4"]
  /\ snd (getDCPs (Demo.always (Body (Some [Demo.reading "S1" Demo.t1 "0.2";
                                            Demo.reading "S2" Demo.t1 "1";
                                            Demo.reading "S1" Demo.t2 "0.4"])))
            "S1" Demo.emptyWorld)
     = countRequest Demo.emptyWorld.
Proof.
  destruct (getDCPs_contract
              (Demo.always (Body (Some [Demo.reading "S1" Demo.t1 "0.2";
                                        Demo.reading "S2" Demo.t1 "1";
                                        Demo.reading "S1" Demo.t2 "0.4"])))
              "S1" Demo.emptyWorld _ eq_refl) as [Hw _].
  split; [reflexivity | exact Hw].
Defined.

(** * Further properties of the file operations *)

Section ExtraFiles.

Variable jsDate : Value -> Moment.t.
Variable momentFormat : Value -> string -> string.
Variable config : Config.

(** X3. Storing a batch writes to one file only, the data file named after
    the last reading: whatever happens, the watermark file of the station
    and every other file are left as they were. *)
Theorem storeBatch_writes_one_file
    (dcpName : string) (firstDcp lastDcp : DCP) (dcps : list DCP) (w : World) :
  let target := mkPath dcpName (buildFileName momentFormat lastDcp +:+ ".dat") in
  let after := snd (storeBatch momentFormat config dcpName firstDcp lastDcp dcps w) in
  readFile (lastDateFile dcpName) after = readFile (lastDateFile dcpName) w
  /\ forall q, q <> target -> readFile q after = readFile q w.
Proof.
  intros target after.
  destruct (storeBatch_within momentFormat config (fun q => q <> target) dcpName firstDcp lastDcp
              dcps (fun H => H eq_refl) w) as (_ & _ & _ & _ & Hkeep & _).
  split; [|exact Hkeep].
  apply Hkeep. intros H. symmetry in H. now apply storeBatch_target_not_lastDate in H.
Qed.



(** X6. A header that could not be written is written later: opening a
    missing file of an existing directory on a full disk leaves the file
    empty and throws, and opening an empty file with room on the disk writes
    the header into it. *)
Theorem openFile_header_after_full_disk
    (fileName : Path) (header : string) (w : World) (d : gmap string string)
    (Hdir : tree w !! pdir fileName = Some d)
    (Hnew : d !! pfile fileName = None)
    (Hfull : diskFull w = true) :
  let failed := openFile config fileName (VStr header) w in
  fst failed = Thrown ENOSPC
  /\ readFile fileName (snd failed) = Some ""
  /\ forall w', readFile fileName w' = Some "" -> diskFull w' = false ->
       fst (openFile config fileName (VStr header) w') = Done (Some fileName)
       /\ readFile fileName (snd (openFile config fileName (VStr header) w')) = Some header.
Proof.
  intros failed. unfold failed.
  rewrite (openFile_existing config fileName header w d Hdir), Hnew, Hfull. simpl.
  split; [reflexivity|]. split.
  - apply readFile_putFile_eq. eauto.
  - intros w' Hempty Hroom. pose proof (readFile_dir _ _ _ Hempty) as [d' Hd'].
    rewrite (openFile_existing config fileName header w' d' Hd'), Hroom.
    unfold readFile in Hempty. rewrite Hd' in Hempty. simpl in Hempty. rewrite Hempty. simpl.
    split; [reflexivity|]. apply (readFile_putFile_eq fileName header w'). eauto.
Qed.

End ExtraFiles.

Lemma openFile_header_after_full_disk_witness :
  fst (openFile (Demo.config ["S1"]) (mkPath "S1" "S1_20190520_131000.dat")
         (VStr ("TIMESTAMP;chuva" +:+ CRLF)) (Demo.harvestedWorld (Some 0)))
  = Thrown ENOSPC.
Proof.
  eapply (openFile_header_after_full_disk (Demo.config ["S1"])
            (mkPath "S1" "S1_20190520_131000.dat") ("TIMESTAMP;chuva" +:+ CRLF)
            (Demo.harvestedWorld (Some 0))).
  - vm_compute. reflexivity.
  - vm_compute. reflexivity.
  - reflexivity.
Defined.

(** * Further properties of a cycle *)

(** ** What a cycle leaves alone *)

Section ExtraFrame.

Variable jsDate : Value -> Moment.t.
Variable momentFormat : Value -> string -> string.
Variable config : Config.
Variable net : nat -> Response.

Lemma stationLoop_other_directory (todo : list string) outputDCP (w : World) (code : string) :
  ~ In code todo ->
  tree (snd (stationLoop jsDate momentFormat config net todo outputDCP w)) !! code
  = tree w !! code.
Proof.
  revert outputDCP w. induction todo as [|station rest IH]; intros outputDCP w Hout; [reflexivity|].
  simpl. unfold bind.
  destruct (stationTurn_within jsDate momentFormat config net (fun _ => False) outputDCP
              station w) as (_ & _ & Hdir & _); [tauto|].
  assert (Hne : code <> station) by (intros ->; apply Hout; now left).
  specialize (Hdir code Hne). simpl in Hdir.
  destruct (stationTurn _ _ _ _ outputDCP station w) as [[out|e|f] w1]; simpl in *; auto.
  rewrite IH; [exact Hdir|]. intros Hin. apply Hout. now right.
Qed.

Lemma stationLoop_keeps_files (todo : list string) outputDCP (w : World) (q : Path) :
  is_Some (readFile q w) ->
  is_Some (readFile q (snd (stationLoop jsDate momentFormat config net todo outputDCP w))).
Proof.
  revert outputDCP w. induction todo as [|station rest IH]; intros outputDCP w Hq; [exact Hq|].
  simpl. unfold bind.
  destruct (stationTurn_within jsDate momentFormat config net (fun _ => False) outputDCP
              station w) as (_ & _ & _ & _ & _ & Hfiles & _); [tauto|].
  specialize (Hfiles q Hq).
  destruct (stationTurn _ _ _ _ outputDCP station w) as [[out|e|f] w1]; simpl in *; auto.
Qed.

(** X8. A cycle works in the directories of the configured stations only and
    deletes nothing: the directory of a code that is not in [config.stations]
    is after the cycle what it was before, and every file that existed
    before the cycle still exists after it, however the cycle ends. *)
Theorem cycle_touches_configured_stations_only
    (code : string) (w : World)
    (Hout : ~ In code (stations config)) :
  let after := snd (getData jsDate momentFormat config net w) in
  tree after !! code = tree w !! code
  /\ forall q, is_Some (readFile q w) -> is_Some (readFile q after).
Proof.
  intros after. unfold after.
  destruct (getData_cases jsDate momentFormat config net w)
    as [(w0 & evs & -> & Ht & _)|(_ & _ & ->)].
  - split.
    + rewrite stationLoop_other_directory by exact Hout. now rewrite Ht.
    + intros q Hq. apply stationLoop_keeps_files. unfold readFile in *. now rewrite Ht.
  - split; [reflexivity | intros q Hq; exact Hq].
Qed.

End ExtraFrame.

Lemma cycle_touches_configured_stations_only_witness :
  tree (snd (getData Utc.jsDate Utc.momentFormat (Demo.config ["S2"])
               (Demo.always Demo.threeReadings) (Demo.harvestedWorld None))) !! "S1"
  = tree (Demo.harvestedWorld None) !! "S1".
Proof.
  apply (cycle_touches_configured_stations_only Utc.jsDate Utc.momentFormat (Demo.config ["S2"])
           (Demo.always Demo.threeReadings) "S1" (Demo.harvestedWorld None)).
  intros [H|[]]. discriminate.
Defined.

(** ** Data files only grow *)

Lemma appendOnly_refl (w : World) : appendOnly w w.
Proof. intros q s _ H. exists "". now rewrite append_nil_r. Qed.

Lemma appendOnly_trans (w1 w2 w3 : World) :
  appendOnly w1 w2 -> appendOnly w2 w3 -> appendOnly w1 w3.
Proof.
  intros H12 H23 q s Hq Hs. destruct (H12 q s Hq Hs) as [m1 H1].
  destruct (H23 q _ Hq H1) as [m2 H2]. exists (m1 +:+ m2). now rewrite H2, append_assoc.
Qed.

Lemma appendOnly_same_files (w w' : World) :
  (forall q, readFile q w' = readFile q w) -> appendOnly w w'.
Proof. intros H q s _ Hs. exists "". now rewrite H, append_nil_r. Qed.

Lemma appendOnly_files (w w1 w2 : World) :
  (forall q, readFile q w2 = readFile q w1) -> appendOnly w w1 -> appendOnly w w2.
Proof.
  intros H H1. eapply appendOnly_trans; [exact H1 | now apply appendOnly_same_files].
Qed.

Ltac same_files := apply appendOnly_same_files; intros; reflexivity.

Lemma appendOnly_append (p : Path) (s : string) (w : World) :
  appendOnly w (putFile p (default "" (readFile p w) +:+ s) w).
Proof.
  intros q s0 _ Hs0. destruct (decide (q = p)) as [->|Hne].
  - exists s. rewrite readFile_putFile_eq by (now apply readFile_dir in Hs0).
    now rewrite Hs0.
  - exists "". now rewrite readFile_putFile_ne, append_nil_r.
Qed.

Lemma appendOnly_watermark (p : Path) (s : string) (w : World) :
  pfile p = "lastDate.dat" -> appendOnly w (putFile p s w).
Proof.
  intros Hp q s0 Hq Hs0. exists "".
  rewrite readFile_putFile_ne by (intros ->; contradiction). now rewrite append_nil_r.
Qed.

Section AppendOnly.

Variable jsDate : Value -> Moment.t.
Variable momentFormat : Value -> string -> string.
Variable config : Config.
Variable net : nat -> Response.

Local Notation "'grows'" := (respects appendOnly).

Lemma grows_ret {A} (a : A) : grows (ret a).
Proof. intros w. apply appendOnly_refl. Qed.

Lemma grows_bind {A B} (m : M A) (k : A -> M B) :
  grows m -> (forall a, grows (k a)) -> grows (bind m k).
Proof. apply respects_bind, appendOnly_trans. Qed.

Lemma grows_writeSync ev fd data : grows (writeSync ev fd data).
Proof.
  intros w. unfold writeSync. destruct fd as [p|]; [|apply appendOnly_refl].
  destruct data as [| | | |text]; try apply appendOnly_refl.
  destruct (diskFull w); simpl; [apply appendOnly_refl|].
  apply (appendOnly_files w (putFile p (default "" (readFile p w) +:+ text) w)); [reflexivity|].
  apply appendOnly_append.
Qed.

Lemma grows_openFile p data : grows (openFile config p data).
Proof.
  intros w. unfold openFile. destruct (tree w !! pdir p) as [d|] eqn:Hd; simpl;
    [|same_files].
  assert (H1 : appendOnly w (putFile p (default "" (d !! pfile p)) w)).
  { replace (default "" (d !! pfile p)) with (default "" (readFile p w) +:+ "")
      by (unfold readFile; rewrite Hd; simpl; apply append_nil_r).
    apply appendOnly_append. }
  destruct (Nat.eqb _ 0); simpl; [|exact H1].
  eapply appendOnly_trans; [exact H1|].
  apply grows_bind; [apply grows_writeSync | intros _; apply grows_ret].
Qed.

Lemma grows_writeLines fd dcps : grows (writeLines momentFormat config fd dcps).
Proof.
  induction dcps as [|dcp rest IH]; simpl; [apply grows_ret|].
  apply grows_bind; [apply grows_writeSync | intros _; exact IH].
Qed.

Lemma grows_storeBatch dcpName firstDcp lastDcp dcps :
  grows (storeBatch momentFormat config dcpName firstDcp lastDcp dcps).
Proof.
  unfold storeBatch. apply grows_bind; [apply grows_openFile|]. intros fd.
  apply grows_bind; [intros w; unfold csvFromFile; destruct (readFile _ w); apply appendOnly_refl|].
  intros _. apply grows_bind; [apply grows_writeLines|]. intros _.
  destruct fd; intros w; apply appendOnly_refl.
Qed.

Lemma grows_mkdirSync dir : grows (mkdirSync dir).
Proof.
  intros w. unfold mkdirSync. destruct (tree w !! dir) as [d|] eqn:Hd; simpl;
    [apply appendOnly_refl|].
  intros q s _ Hs. exists "". rewrite append_nil_r. rewrite <- Hs. unfold readFile. simpl.
  destruct (decide (dir = pdir q)) as [He|Hne]; [|now rewrite lookup_insert_ne].
  unfold readFile in Hs. rewrite <- He, Hd in Hs. discriminate.
Qed.

Lemma grows_saveLastDate dcpName v : grows (saveLastDate (lastDateFile dcpName) v).
Proof.
  intros w. unfold saveLastDate. destruct (readFile _ w); [|apply appendOnly_refl].
  destruct v as [| | | |date]; try apply appendOnly_refl.
  destruct (diskFull w); simpl; [now apply appendOnly_watermark|].
  apply (appendOnly_files w (putFile (lastDateFile dcpName) date w)); [reflexivity|].
  now apply appendOnly_watermark.
Qed.

Lemma grows_persistDCPs dcps : grows (persistDCPs jsDate momentFormat config dcps).
Proof.
  unfold persistDCPs.
  destruct (head dcps) as [firstDcp|]; [|intros w; apply appendOnly_refl].
  destruct (last dcps) as [lastDcp|]; [|intros w; apply appendOnly_refl].
  apply grows_bind; [intros w; apply appendOnly_refl|]. intros present.
  apply grows_bind.
  - destruct present; simpl.
    + intros w. unfold listFileFromDirectory. destruct (tree w !! _); same_files.
    + apply grows_bind; [intros w; same_files|]. intros _.
      apply grows_bind; [apply grows_mkdirSync|]. intros _.
      apply grows_bind; [apply grows_openFile | intros _; apply grows_ret].
  - intros files. destruct (Nat.ltb 0 (length files)); [|apply grows_storeBatch].
    apply grows_bind; [intros w; unfold getLastDate; destruct (readFile _ w); apply appendOnly_refl|].
    intros lastDate.
    destruct (head _); [|apply grows_ret]. destruct (last _); [|apply grows_ret].
    apply grows_bind; [apply grows_saveLastDate | intros _; apply grows_storeBatch].
Qed.

Lemma grows_processStation station :
  grows (processStation jsDate momentFormat config net station).
Proof.
  unfold processStation. apply grows_bind.
  - intros w. rewrite getDCPs_world. same_files.
  - intros dcps. apply grows_bind; [apply grows_persistDCPs | intros _; apply grows_ret].
Qed.

Lemma grows_stationTurn outputDCP station :
  grows (stationTurn jsDate momentFormat config net outputDCP station).
Proof.
  intros w. destruct (stationTurn_world jsDate momentFormat config net outputDCP station w)
    as (evs & Hw & _). simpl in Hw. rewrite Hw.
  eapply appendOnly_trans; [apply grows_processStation|]. now apply appendOnly_same_files.
Qed.

Lemma grows_stationLoop todo outputDCP :
  grows (stationLoop jsDate momentFormat config net todo outputDCP).
Proof.
  revert outputDCP. induction todo as [|station rest IH]; intros outputDCP; simpl;
    [apply grows_ret|].
  apply grows_bind; [apply grows_stationTurn | intros out; apply IH].
Qed.

(** X9. Data files are append-only: however a cycle ends, every file other
    than a watermark file still begins with all it held before the cycle. *)
Theorem data_files_only_grow (w : World) :
  appendOnly w (snd (getData jsDate momentFormat config net w)).
Proof.
  destruct (getData_cases jsDate momentFormat config net w)
    as [(w0 & evs & -> & Ht & _)|(_ & _ & ->)].
  - eapply appendOnly_trans; [|apply grows_stationLoop].
    apply appendOnly_same_files. intros q. unfold readFile. now rewrite Ht.
  - now apply appendOnly_same_files.
Qed.

End AppendOnly.

(** * Further properties of the handling of one station *)

Lemma linesWritten_lines {A} (p : Path) (f : A -> string) (l : list A) :
  linesWritten (map (fun x => EvLine p (f x)) l) = length l.
Proof. unfold linesWritten. induction l as [|x l IH]; simpl; [reflexivity | now rewrite IH]. Qed.

Section ExtraStation.

Variable jsDate : Value -> Moment.t.
Variable momentFormat : Value -> string -> string.
Variable config : Config.
Variable net : nat -> Response.

Local Notation "'lineOf' dcp" := (buildLine momentFormat dcp (buildKeys dcp (exclude config)))
  (at level 10).

Lemma storeBatch_unlimited_lines dcpName firstDcp lastDcp dcps w d :
  quota w = None -> tree w !! dcpName = Some d ->
  linesWritten (trace (snd (storeBatch momentFormat config dcpName firstDcp lastDcp dcps w)))
  = linesWritten (trace w) + length dcps.
Proof.
  intros Hq Hd. unfold storeBatch.
  set (target := mkPath dcpName _). set (header := buildHeader _).
  pose proof (openFile_existing config target header w d Hd) as Hopen.
  rewrite (diskFull_unlimited w Hq) in Hopen.
  assert (Hgo : forall w1 old, quota w1 = None -> readFile target w1 = Some old ->
            linesWritten
              (trace (snd ((csvFromFile target ;;;
                            writeLines momentFormat config (Some target) dcps ;;;
                            closeSync (Some target))%cemaden w1)))
            = linesWritten (trace w1) + length dcps).
  { intros w1 old Hq1 Hs1.
    rewrite (bind_Done _ _ w1 w1 tt) by (unfold csvFromFile; now rewrite Hs1).
    destruct (writeLines_unlimited momentFormat config target dcps w1 old Hq1 Hs1)
      as (A & _ & _ & D).
    destruct (writeLines _ _ _ _ w1) as [r w2] eqn:Hrun. simpl in A, D. subst r.
    rewrite (bind_Done _ _ w1 w2 tt Hrun). simpl.
    now rewrite D, linesWritten_app, linesWritten_lines. }
  assert (Hpd : pdir target = dcpName) by reflexivity. clearbody target.
  destruct (d !! pfile target) as [[|c s]|] eqn:Hf; rewrite (bind_Done _ _ _ _ _ Hopen).
  - erewrite Hgo; [cbn [trace logEvent spend]; rewrite trace_putFile, linesWritten_app; cbn; lia
                  |simpl; now rewrite quota_putFile, Hq
                  |apply (readFile_putFile_eq target); rewrite Hpd; eauto].
  - erewrite Hgo; [reflexivity | exact Hq | unfold readFile; rewrite Hpd, Hd; exact Hf].
  - erewrite Hgo; [cbn [trace logEvent spend]; rewrite trace_putFile, linesWritten_app; cbn; lia
                  |simpl; now rewrite quota_putFile, Hq
                  |apply (readFile_putFile_eq target); rewrite Hpd; eauto].
Qed.


(** X11. A station that has a watermark and no reading after it: the
    handling costs one request, writes nothing, logs nothing, and still
    resolves with all the readings matched for the station. *)
Theorem nothing_new_nothing_written
    (station : string) (w : World) (d : gmap string string) (lastDate : string)
    (Hdir : tree w !! station = Some d)
    (Hwm : d !! "lastDate.dat" = Some lastDate)
    (Hsome : stationReadings station (net (requests w)) <> [])
    (Hnone : dcpsToSave jsDate lastDate (stationReadings station (net (requests w))) = []) :
  processStation jsDate momentFormat config net station w
  = (Done (stationReadings station (net (requests w))), countRequest w).
Proof.
  destruct (nonempty_ends _ Hsome) as (firstDcp & lastDcp & Hf & Hl).
  rewrite (processStation_persist jsDate momentFormat config net station w _ eq_refl Hsome).
  unfold bind at 1.
  rewrite (persistDCPs_incremental jsDate momentFormat config _ firstDcp lastDcp station
             (countRequest w) d lastDate Hf Hl (last_code _ _ _ Hl) Hdir Hwm).
  now rewrite Hnone.
Qed.

(** X12. A station directory that holds files but no watermark file: the
    read of [lastDate.dat] fails inside its callback, the exception is caught
    by nobody and the process dies there, after the request and before any
    write; the stations that follow are not handled and the wrapper exits
    with code 1 without printing. *)
Theorem missing_watermark_ends_the_process
    (station : string) (rest : list string) (outputDCP : list (list DCP))
    (w : World) (d : gmap string string) (name content : string)
    (Hdir : tree w !! station = Some d)
    (Hfile : d !! name = Some content)
    (Hwm : d !! "lastDate.dat" = None)
    (Hsome : stationReadings station (net (requests w)) <> []) :
  stationLoop jsDate momentFormat config net (station :: rest) outputDCP w
  = (Fatal (Uncaught ENOENT), countRequest w)
  /\ (root w = true -> stations config = station :: rest ->
      example_cemaden jsDate momentFormat config net w = (mkExit None 1, countRequest w)).
Proof.
  destruct (nonempty_ends _ Hsome) as (firstDcp & lastDcp & Hf & Hl).
  assert (Hp : processStation jsDate momentFormat config net station w
               = (Fatal (Uncaught ENOENT), countRequest w)).
  { rewrite (processStation_persist jsDate momentFormat config net station w _ eq_refl Hsome).
    unfold bind at 1.
    now rewrite (persistDCPs_no_watermark jsDate momentFormat config _ firstDcp lastDcp station
                   (countRequest w) d name content Hf Hl (last_code _ _ _ Hl) Hdir Hfile Hwm). }
  assert (Hloop : forall out,
            stationLoop jsDate momentFormat config net (station :: rest) out w
            = (Fatal (Uncaught ENOENT), countRequest w)).
  { intros out. simpl. unfold bind at 1.
    pose proof (stationTurn_cases jsDate momentFormat config net out station w) as Ht.
    rewrite Hp in Ht. now rewrite Ht. }
  split; [apply Hloop|].
  intros Hroot Hconfig. unfold example_cemaden.
  now rewrite getData_unfold, Hroot, Hconfig, Hloop.
Qed.

(** X13. A station directory that exists and is empty: with room on the
    disk every reading is written to the data file, after the header, but no
    watermark file is created (it is only written when the directory is
    created); the next handling of the station, when the service has readings
    for it, then dies on the missing watermark file. *)
Theorem empty_directory_gets_no_watermark
    (station : string) (w : World) (dcps : list DCP) (firstDcp lastDcp : DCP)
    (Hreadings : stationReadings station (net (requests w)) = dcps)
    (Hfirst : head dcps = Some firstDcp)
    (Hlast : last dcps = Some lastDcp)
    (Hempty : tree w !! station = Some ∅)
    (Hquota : quota w = None)
    (Hnext : stationReadings station (net (S (requests w))) <> []) :
  let run := processStation jsDate momentFormat config net station w in
  let target := mkPath station (buildFileName momentFormat lastDcp +:+ ".dat") in
  fst run = Done dcps
  /\ readFile target (snd run)
     = Some (buildHeader (buildKeys firstDcp (exclude config))
             +:+ String.concat "" (map (fun dcp => lineOf dcp) dcps))
  /\ readFile (lastDateFile station) (snd run) = None
  /\ fst (processStation jsDate momentFormat config net station (snd run))
     = Fatal (Uncaught ENOENT).
Proof.
  intros run target.
  assert (Hne : dcps <> []) by (intros ->; discriminate).
  assert (Hcode : toStr (prop lastDcp "codestacao") = station)
    by (apply (last_code station (net (requests w))); now rewrite Hreadings).
  set (w1 := countRequest w).
  destruct (storeBatch_unlimited momentFormat config station firstDcp lastDcp dcps w1 ∅
              Hquota Hempty) as (A & B & _).
  destruct (storeBatch_within momentFormat config (fun q => q = lastDateFile station) station
              firstDcp lastDcp dcps
              (storeBatch_target_not_lastDate momentFormat station lastDcp) w1)
    as (Hreq & _ & _ & _ & Hkeep & _).
  destruct (storeBatch momentFormat config station firstDcp lastDcp dcps w1)
    as [r w2] eqn:Hstore. cbn [fst snd] in A, B, Hreq, Hkeep. subst r.
  rewrite lookup_empty in B.
  assert (Hrun : processStation jsDate momentFormat config net station w = (Done dcps, w2)).
  { rewrite (processStation_persist jsDate momentFormat config net station w dcps Hreadings Hne).
    fold w1. rewrite (bind_Done _ _ w1 w2 tt); [reflexivity|].
    now rewrite (persistDCPs_empty_dir jsDate momentFormat config dcps firstDcp lastDcp station
                   w1 Hfirst Hlast Hcode Hempty). }
  assert (Hnowm : readFile (lastDateFile station) w2 = None).
  { rewrite Hkeep by reflexivity. unfold readFile. simpl. now rewrite Hempty. }
  unfold run. rewrite Hrun. cbn [fst snd].
  split; [reflexivity|]. split; [exact B|]. split; [exact Hnowm|].
  assert (Hreadings2 : stationReadings station (net (requests w2)) <> [])
    by (rewrite Hreq; exact Hnext).
  destruct (nonempty_ends _ Hreadings2) as (f2 & l2 & Hf2 & Hl2).
  rewrite (processStation_persist jsDate momentFormat config net station w2 _ eq_refl Hreadings2).
  unfold bind at 1. unfold readFile in B, Hnowm. cbn [pdir pfile lastDateFile] in B, Hnowm.
  destruct (tree w2 !! station) as [d2|] eqn:Hd2; [|discriminate]. simpl in B, Hnowm.
  now rewrite (persistDCPs_no_watermark jsDate momentFormat config _ f2 l2 station
                 (countRequest w2) d2 _ _ Hf2 Hl2 (last_code _ _ _ Hl2) Hd2 B Hnowm).
Qed.

End ExtraStation.


Lemma nothing_new_nothing_written_witness :
  processStation Utc.jsDate Utc.momentFormat (Demo.config ["S1"])
    (Demo.always (Body (Some [Demo.reading "S1" Demo.t1 "0.2"]))) "S1" (Demo.harvestedWorld None)
  = (Done [Demo.reading "S1" Demo.t1 "0.2"], countRequest (Demo.harvestedWorld None)).
Proof.
  apply (nothing_new_nothing_written Utc.jsDate Utc.momentFormat (Demo.config ["S1"])
           (Demo.always (Body (Some [Demo.reading "S1" Demo.t1 "0.2"]))) "S1"
           (Demo.harvestedWorld None)
           {[ "lastDate.dat" := Demo.t1;
              "S1_20190520_130000.dat" :=
                "TIMESTAMP;chuva" +:+ CRLF +:+ "05/20/2019 13:00:00;0.2" +:+ CRLF ]}
           Demo.t1 eq_refl eq_refl).
  - discriminate.
  - reflexivity.
Defined.

Lemma missing_watermark_ends_the_process_witness :
  example_cemaden Utc.jsDate Utc.momentFormat Demo.twoStations (Demo.always Demo.threeReadings)
    Demo.orphanWorld
  = (mkExit None 1, countRequest Demo.orphanWorld).
Proof.
  destruct (missing_watermark_ends_the_process Utc.jsDate Utc.momentFormat Demo.twoStations
              (Demo.always Demo.threeReadings) "S1" ["S2"] [] Demo.orphanWorld
              {[ "S1_20190520_130000.dat" :=
                   "TIMESTAMP;chuva" +:+ CRLF +:+ "05/20/2019 13:00:00;0.2" +:+ CRLF ]}
              "S1_20190520_130000.dat"
              ("TIMESTAMP;chuva" +:+ CRLF +:+ "05/20/2019 13:00:00;0.2" +:+ CRLF)
              eq_refl eq_refl eq_refl) as [_ H].
  - discriminate.
  - apply H; reflexivity.
Defined.

Lemma empty_directory_gets_no_watermark_witness :
  let run := processStation Utc.jsDate Utc.momentFormat (Demo.config ["S1"])
               (Demo.always Demo.threeReadings) "S1" Demo.emptyDirWorld in
  readFile (lastDateFile "S1") (snd run) = None
  /\ fst (processStation Utc.jsDate Utc.momentFormat (Demo.config ["S1"])
            (Demo.always Demo.threeReadings) "S1" (snd run))
     = Fatal (Uncaught ENOENT).
Proof.
  destruct (empty_directory_gets_no_watermark Utc.jsDate Utc.momentFormat (Demo.config ["S1"])
              (Demo.always Demo.threeReadings) "S1" Demo.emptyDirWorld
              [Demo.reading "S1" Demo.t1 "0.2"; Demo.reading "S1" Demo.t2 "0.4";
               Demo.reading "S1" Demo.t3 "0"]
              (Demo.reading "S1" Demo.t1 "0.2") (Demo.reading "S1" Demo.t3 "0")
              eq_refl eq_refl eq_refl eq_refl eq_refl) as (_ & _ & A & B).
  - discriminate.
  - split; [exact A | exact B].
Defined.


(** * How a cycle can end *)

Section ExtraEnd.

Variable jsDate : Value -> Moment.t.
Variable momentFormat : Value -> string -> string.
Variable config : Config.
Variable net : nat -> Response.

Local Notation "'dies'" := (fatalOnly watermarkCallback).

Lemma dies_bind {A B} (m : M A) (k : A -> M B) :
  dies m -> (forall a, dies (k a)) -> dies (bind m k).
Proof.
  intros Hm Hk w f. unfold bind. specialize (Hm w).
  destruct (m w) as [[a|e|f'] w1]; simpl in *; [apply Hk | discriminate|].
  intros [= <-]. now apply Hm.
Qed.

Lemma dies_ret {A} (a : A) : dies (ret a).
Proof. intros w f. discriminate. Qed.

Lemma dies_writeSync ev fd data : dies (writeSync ev fd data).
Proof.
  intros w f. unfold writeSync. destruct fd; [|discriminate].
  destruct data; try discriminate. destruct (diskFull w); discriminate.
Qed.

Lemma dies_openFile p data : dies (openFile config p data).
Proof.
  intros w f. unfold openFile. destruct (tree w !! pdir p); [|discriminate].
  destruct (Nat.eqb _ 0); [|discriminate].
  apply dies_bind; [apply dies_writeSync | intros _; apply dies_ret].
Qed.

Lemma dies_writeLines fd dcps : dies (writeLines momentFormat config fd dcps).
Proof.
  induction dcps as [|dcp rest IH]; simpl; [apply dies_ret|].
  apply dies_bind; [apply dies_writeSync | intros _; exact IH].
Qed.

Lemma dies_storeBatch dcpName firstDcp lastDcp dcps :
  dies (storeBatch momentFormat config dcpName firstDcp lastDcp dcps).
Proof.
  unfold storeBatch. apply dies_bind; [apply dies_openFile|]. intros fd.
  apply dies_bind; [intros w f; unfold csvFromFile; destruct (readFile _ w); discriminate|].
  intros _. apply dies_bind; [apply dies_writeLines|]. intros _.
  destruct fd; intros w f; discriminate.
Qed.

Lemma dies_saveLastDate p v : dies (saveLastDate p v).
Proof.
  intros w f. unfold saveLastDate, watermarkCallback. destruct (readFile p w).
  - destruct v; try (intros [= <-]; now right). destruct (diskFull w); discriminate.
  - intros [= <-]. now left.
Qed.

Lemma dies_persistDCPs dcps : dies (persistDCPs jsDate momentFormat config dcps).
Proof.
  intros w f.
  destruct (head dcps) as [firstDcp|] eqn:Hf;
    [|unfold persistDCPs; rewrite Hf; discriminate].
  destruct (last dcps) as [lastDcp|] eqn:Hl;
    [|unfold persistDCPs; rewrite Hf, Hl; discriminate].
  set (dir := toStr (prop lastDcp "codestacao")).
  destruct (tree w !! dir) as [d|] eqn:Hd.
  - destruct (decide (d = ∅)) as [->|Hne].
    + rewrite (persistDCPs_empty_dir jsDate momentFormat config dcps firstDcp lastDcp dir w
                 Hf Hl eq_refl Hd). apply dies_storeBatch.
    + destruct (map_choose d Hne) as (k & v & Hk).
      destruct (d !! "lastDate.dat") as [lastDate|] eqn:Hwm.
      * rewrite (persistDCPs_incremental jsDate momentFormat config dcps firstDcp lastDcp dir w
                   d lastDate Hf Hl eq_refl Hd Hwm).
        destruct (head (dcpsToSave jsDate lastDate dcps)); [|discriminate].
        destruct (last (dcpsToSave jsDate lastDate dcps)); [|discriminate].
        apply dies_bind; [apply dies_saveLastDate | intros _; apply dies_storeBatch].
      * rewrite (persistDCPs_no_watermark jsDate momentFormat config dcps firstDcp lastDcp dir w
                   d k v Hf Hl eq_refl Hd Hk Hwm).
        intros [= <-]. now left.
  - rewrite (persistDCPs_fresh jsDate momentFormat config dcps firstDcp lastDcp dir w
               Hf Hl eq_refl Hd).
    apply dies_bind; [intros w0 f0; discriminate|]. intros _.
    apply dies_bind;
      [intros w0 f0; unfold mkdirSync; destruct (tree w0 !! dir); discriminate|]. intros _.
    apply dies_bind; [apply dies_openFile | intros _; apply dies_storeBatch].
Qed.

Lemma dies_processStation station :
  dies (processStation jsDate momentFormat config net station).
Proof.
  unfold processStation. apply dies_bind.
  - intros w f H. pose proof (getDCPs_outcome net station w) as Ho. rewrite H in Ho.
    contradiction.
  - intros dcps. apply dies_bind; [apply dies_persistDCPs | intros _; apply dies_ret].
Qed.

Lemma dies_stationLoop todo outputDCP :
  dies (stationLoop jsDate momentFormat config net todo outputDCP).
Proof.
  revert outputDCP. induction todo as [|station rest IH]; intros outputDCP; simpl;
    [apply dies_ret|].
  apply dies_bind; [|intros out; apply IH].
  intros w f. pose proof (stationTurn_cases jsDate momentFormat config net outputDCP station w)
    as Ht.
  pose proof (dies_processStation station w) as Hp.
  destruct (processStation jsDate momentFormat config net station w) as [[dcps|e|f'] w1];
    rewrite Ht; simpl in *; try discriminate.
  intros [= <-]. now apply Hp.
Qed.


End ExtraEnd.
(** * What [getData] resolves with *)

Section ExtraResult.

Variable jsDate : Value -> Moment.t.
Variable momentFormat : Value -> string -> string.
Variable config : Config.
Variable net : nat -> Response.

Lemma saveLastDate_not_Thrown p v w e : fst (saveLastDate p v w) <> Thrown e.
Proof.
  unfold saveLastDate. destruct (readFile p w); [|discriminate].
  destruct v; try discriminate. destruct (diskFull w); discriminate.
Qed.

(** With no write refused, storing the readings of a station does not
    throw once the last reading carries its [dataHora] as a string. *)
Lemma persistDCPs_unlimited_not_Thrown dcps lastDcp stamp w e :
  quota w = None -> last dcps = Some lastDcp -> prop lastDcp "dataHora" = VStr stamp ->
  fst (persistDCPs jsDate momentFormat config dcps w) <> Thrown e.
Proof.
  intros Hq Hl Hstamp.
  destruct (head dcps) as [firstDcp|] eqn:Hf;
    [|apply head_None_nil in Hf; subst dcps; discriminate].
  set (dir := toStr (prop lastDcp "codestacao")).
  assert (Hstore : forall first lst batch w0 d0,
            quota w0 = None -> tree w0 !! dir = Some d0 ->
            fst (storeBatch momentFormat config dir first lst batch w0) <> Thrown e).
  { intros first lst batch w0 d0 Hq0 Hd0.
    destruct (storeBatch_unlimited momentFormat config dir first lst batch w0 d0 Hq0 Hd0)
      as (A & _). rewrite A. discriminate. }
  destruct (tree w !! dir) as [d|] eqn:Hd.
  - destruct (decide (d = ∅)) as [->|Hne].
    + rewrite (persistDCPs_empty_dir jsDate momentFormat config dcps firstDcp lastDcp dir w
                 Hf Hl eq_refl Hd). now apply (Hstore _ _ _ _ ∅).
    + destruct (map_choose d Hne) as (k & v & Hk).
      destruct (d !! "lastDate.dat") as [lastDate|] eqn:Hwm.
      * rewrite (persistDCPs_incremental jsDate momentFormat config dcps firstDcp lastDcp dir w
                   d lastDate Hf Hl eq_refl Hd Hwm).
        destruct (head (dcpsToSave jsDate lastDate dcps)) as [firstToSave|]; [|discriminate].
        destruct (last (dcpsToSave jsDate lastDate dcps)) as [lastToSave|]; [|discriminate].
        unfold bind.
        pose proof (saveLastDate_not_Thrown (lastDateFile dir) (prop lastToSave "dataHora") w)
          as Hnt.
        destruct (inside_saveLastDate dir (fun _ => False) (lastDateFile dir)
                    (prop lastToSave "dataHora") eq_refl (fun H => H) w)
          as (_ & Hq1 & _ & Hdirs & _).
        destruct (saveLastDate (lastDateFile dir) (prop lastToSave "dataHora") w)
          as [[saved|e1|f1] w1]; simpl in *; [|now elim (Hnt e1)|discriminate].
        destruct (Hdirs dir) as [d1 Hd1]; [eauto|].
        now apply (Hstore _ _ _ _ d1); auto.
      * rewrite (persistDCPs_no_watermark jsDate momentFormat config dcps firstDcp lastDcp dir w
                   d k v Hf Hl eq_refl Hd Hk Hwm). discriminate.
  - destruct (persistDCPs_fresh_unlimited jsDate momentFormat config dcps firstDcp lastDcp dir
                stamp w Hf Hl eq_refl Hstamp Hd Hq) as (w3 & -> & Hd3 & Hq3).
    now apply (Hstore _ _ _ _ _ Hq3 Hd3).
Qed.

(** What handling a station yields, against the answer to its request. *)
Lemma processStation_outcome (station : string) (w : World) :
  match fst (processStation jsDate momentFormat config net station w) with
  | Done dcps => dcps = stationReadings station (net (requests w)) /\ dcps <> []
  | Thrown _ =>
      stationReadings station (net (requests w)) = []
      \/ (quota w = None ->
          forall lastDcp stamp,
            last (stationReadings station (net (requests w))) = Some lastDcp ->
            prop lastDcp "dataHora" <> VStr stamp)
  | Fatal _ => True
  end.
Proof.
  unfold processStation, bind at 1.
  pose proof (getDCPs_outcome net station w) as Ho.
  pose proof (getDCPs_world net station w) as Hw.
  destruct (getDCPs net station w) as [[batch|e|f] w1]; simpl in *; subst w1.
  - destruct Ho as [Hb Hne]. unfold bind.
    destruct (persistDCPs jsDate momentFormat config batch (countRequest w))
      as [[[]|e|f] w2] eqn:Hp; simpl; auto.
    right. intros Hq lastDcp stamp Hl Hstamp. rewrite <- Hb in Hl.
    apply (persistDCPs_unlimited_not_Thrown batch lastDcp stamp (countRequest w) e Hq Hl Hstamp).
    now rewrite Hp.
  - left. apply Ho.
  - contradiction.
Qed.

Lemma answered_cons (station : string) (rest : list string) (n : nat) :
  answered net n (station :: rest)
  = match stationReadings station (net n) with
    | [] => answered net (S n) rest
    | batch => batch :: answered net (S n) rest
    end.
Proof. reflexivity. Qed.

Lemma stationLoop_answered (todo : list string) outputDCP (w : World) dcps :
  fst (stationLoop jsDate momentFormat config net todo outputDCP w) = Done dcps ->
  exists added,
    dcps = outputDCP ++ added
    /\ sublist added (answered net (requests w) todo)
    /\ (quota w = None ->
        (forall station n lastDcp,
           In station todo -> last (stationReadings station (net n)) = Some lastDcp ->
           exists stamp, prop lastDcp "dataHora" = VStr stamp) ->
        added = answered net (requests w) todo).
Proof.
  revert outputDCP w. induction todo as [|station rest IH]; intros outputDCP w.
  - simpl. intros [= <-]. exists []. rewrite app_nil_r. repeat split; constructor.
  - cbn [stationLoop]. unfold bind. rewrite answered_cons.
    pose proof (stationTurn_cases jsDate momentFormat config net outputDCP station w) as Ht.
    pose proof (processStation_outcome station w) as Ho.
    destruct (stationTurn_within jsDate momentFormat config net (fun _ => False) outputDCP
                station w) as (Hreq & Hq1 & _); [tauto|].
    cbn [requests quota countRequest] in Hreq, Hq1.
    destruct (processStation jsDate momentFormat config net station w) as [[batch|e|f] w1];
      rewrite Ht in *; cbn [fst snd] in *; [| |discriminate].
    + destruct Ho as [<- Hne]. intros H.
      destruct (IH _ _ H) as (added & -> & Hsub & Heq). rewrite Hreq in Hsub, Heq.
      exists (batch :: added). rewrite <- app_assoc. split; [reflexivity|].
      destruct batch as [|dcp batch]; [congruence|]. split; [now constructor|].
      intros Hq Hstamps. f_equal. apply Heq; [auto|].
      intros st n l Hin. apply Hstamps. now right.
    + intros H. destruct (IH _ _ H) as (added & -> & Hsub & Heq). rewrite Hreq in Hsub, Heq.
      exists added. split; [reflexivity|].
      destruct (stationReadings station (net (requests w))) as [|dcp batch] eqn:Hr.
      * split; [exact Hsub|]. intros Hq Hstamps. apply Heq; [auto|].
        intros st n l Hin. apply Hstamps. now right.
      * split; [now constructor|]. intros Hq Hstamps. exfalso.
        destruct Ho as [Ho|Ho]; [discriminate|].
        destruct (last (dcp :: batch)) as [lastDcp|] eqn:Hl; [|now apply last_None in Hl].
        destruct (Hstamps station (requests w) lastDcp) as [stamp Hstamp];
          [now left | now rewrite Hr |].
        now apply (Ho Hq lastDcp stamp).
Qed.

(** X15. When [getData] resolves, the array it resolves with follows
    [config.stations] and the requests of the cycle.  The station at position
    [i] is matched against the answer to the [i]-th request of the cycle; a
    station has a batch in the result only if that answer holds readings for
    it, the batch being all of them, and the batches come in the order of
    the configuration with no gap for the stations left out.  When no write
    is refused and the last reading of every station carries its [dataHora]
    as a string, no station with readings is left out: the result is exactly
    the non-empty lists of matched readings, station by station. *)
Theorem result_follows_configuration (w : World) (dcps : list (list DCP))
    (Hdone : fst (getData jsDate momentFormat config net w) = Done dcps) :
  sublist dcps (answered net (requests w) (stations config))
  /\ (quota w = None ->
      (forall station n lastDcp,
         In station (stations config) ->
         last (stationReadings station (net n)) = Some lastDcp ->
         exists stamp, prop lastDcp "dataHora" = VStr stamp) ->
      dcps = answered net (requests w) (stations config)).
Proof.
  destruct (getData_Done _ _ _ _ _ _ Hdone) as (w0 & evs & Hrun & _ & Hq0 & Hreq & _).
  rewrite Hrun in Hdone.
  destruct (stationLoop_answered _ _ _ _ Hdone) as (added & -> & Hsub & Heq).
  rewrite Hreq, Hq0 in *. simpl. split; [exact Hsub | exact Heq].
Qed.

End ExtraResult.

(** The first station is matched against the first answer and the second
    against the second one. *)
Lemma result_follows_configuration_witness :
  [[Demo.reading "S1" Demo.t1 "0.2"]; [Demo.reading "S2" Demo.t2 "0.4"]]
  = answered Demo.changingAnswers 0 ["S1"; "S2"].
Proof.
  destruct (result_follows_configuration Utc.jsDate Utc.momentFormat Demo.twoStations
              Demo.changingAnswers Demo.emptyWorld
              [[Demo.reading "S1" Demo.t1 "0.2"]; [Demo.reading "S2" Demo.t2 "0.4"]])
    as [_ H].
  - vm_compute. reflexivity.
  - apply H; [reflexivity|].
    intros station n lastDcp _ Hl. apply last_In in Hl.
    destruct n as [|n]; apply filter_In in Hl as [Hin _];
      destruct Hin as [<-|[]]; eexists; reflexivity.
Defined.
(** * The command line wrapper *)

(** C9, as stated, fails: three records are saved and the wrapper prints the
    count 1, the number of station batches. *)
Lemma wrapper_counts_batches_not_records :
  let cfg := Demo.config ["S1"] in
  let run := example_cemaden Utc.jsDate Utc.momentFormat cfg (Demo.always Demo.threeReadings)
               Demo.emptyWorld in
  linesWritten (trace (snd run)) = 3
  /\ printed (fst run) = Some "Done. Saved 1 DCPs in shared-data"
  /\ exitCode (fst run) = 0%Z.
Proof. vm_compute. repeat split; reflexivity. Qed.

(** C9 (amended). When [getData] resolves, the wrapper prints the number of
    station batches it returned and exits with code 0; each batch is the
    whole non-empty list of readings matched for one configured station in
    the answer to the request made for that station, the batches follow the
    order of the configuration, and the count is at most the number of
    stations.  When [getData] rejects, the
    wrapper prints the error and exits with code 1; it does reject when the
    target directory is missing and cannot be created.  When the process dies
    in a callback the wrapper prints nothing. *)
Theorem wrapper_contract
    (jsDate : Value -> Moment.t) (momentFormat : Value -> string -> string)
    (config : Config) (net : nat -> Response) (w : World) :
  match getData jsDate momentFormat config net w with
  | (Done dcps, w') =>
      example_cemaden jsDate momentFormat config net w
      = (mkExit (Some ("Done. Saved " +:+ pretty (length dcps) +:+ " DCPs in " +:+ dataDir config)) 0, w')
      /\ length dcps <= length (stations config)
      /\ Forall (fun batch => batch <> [] /\ exists station n,
                   In station (stations config) /\ batch = stationReadings station (net n)) dcps
      /\ sublist dcps (answered net (requests w) (stations config))
  | (Thrown err, w') =>
      example_cemaden jsDate momentFormat config net w
      = (mkExit (Some ("Got error while retrieving DCPS. " +:+ exnString config err)) 1, w')
  | (Fatal _, _) =>
      printed (fst (example_cemaden jsDate momentFormat config net w)) = None
  end
  /\ (root w = false -> parent w = false ->
      exists w', getData jsDate momentFormat config net w = (Thrown ENOENT, w')
                 /\ requests w' = requests w /\ tree w' = tree w).
Proof.
  split.
  - unfold example_cemaden.
    destruct (getData jsDate momentFormat config net w) as [[dcps|err|f] w'] eqn:Hrun; auto.
    + split; [reflexivity|].
      assert (H : fst (getData jsDate momentFormat config net w) = Done dcps) by now rewrite Hrun.
      destruct (getData_Done _ _ _ _ _ _ H) as (w0 & evs & Hloop & _ & _ & Hreq & _).
      rewrite Hloop in H.
      destruct (stationLoop_answered _ _ _ _ _ _ _ _ H) as (matched & Hm & Hsub & _).
      apply stationLoop_batches in H as (added & -> & Hlen & Hall).
      simpl in *. subst matched. rewrite Hreq in Hsub. auto.
    + destruct f; reflexivity.
  - intros Hr Hp. rewrite (getData_blocked _ _ _ _ _ Hr Hp). eexists. split; [reflexivity|].
    split; reflexivity.
Qed.

(** With neither the target directory nor a directory to create it in, the
    wrapper reports the error of [fs.mkdirSync] and exits with code 1. *)
Lemma wrapper_contract_witness :
  example_cemaden Utc.jsDate Utc.momentFormat (Demo.config ["S1"])
    (Demo.always Demo.threeReadings) Demo.blockedWorld
  = (mkExit (Some "Got error while retrieving DCPS. Error: ENOENT: no such file or directory, mkdir 'shared-data'") 1,
     logEvent (EvConsole "The directory shared-data does not exist. Creating...")
       Demo.blockedWorld).
Proof.
  destruct (wrapper_contract Utc.jsDate Utc.momentFormat (Demo.config ["S1"])
              (Demo.always Demo.threeReadings) Demo.blockedWorld) as [H _].
  exact H.
Defined.
